(** * The payment webhook, signup and activity handlers of [src/index.js]

    A shallow embedding of the three Express handlers that write to the
    Firestore [users] collection:

    - [POST /signup]            (index.js, lines 51-74)
    - [POST /paystack/webhook]  (index.js, lines 114-149)
    - [POST /activity]          (index.js, lines 152-166)

    Modelling choices.

    - JavaScript numbers are IEEE 754 binary64 values, so balances and
      amounts are Rocq's primitive floats, and [+] and [/] are the
      hardware operations with their rounding.
    - A property of a request body or of a stored document is missing,
      null, or a value of the type it has in the system's data
      ([jsfield]); a property holding a value of another JavaScript type
      (an amount sent as a string, say) is outside the model.
    - Firebase Auth and Firestore are external.  The directory is a
      finite map from addresses to account ids, the collection a finite
      map from document ids to documents, and the handlers thread both
      explicitly.  A call to either service may fail for reasons of its
      own ([faults]); [createUser] answers through an argument of
      [signup]; the clock is an argument of the handlers that read it.
    - [db.runTransaction] is atomic and [FieldValue.arrayUnion] is a
      union, as Firestore documents them. *)

From Stdlib Require Import PrimFloat.
From Stdlib Require FloatOps FloatAxioms.
From stdpp Require Import gmap strings list.

Open Scope string_scope.

(** ** JavaScript values of the request and of the stored documents *)

(** A property of a parsed JSON object or of a Firestore document:
    missing ([undefined] when read), [null], or holding a value of the
    type the property has in the system's data ([email] a string,
    [amount] and [balance] numbers, [data] and [customer] objects). *)
Inductive jsfield (A : Type) : Type :=
  | JAbsent
  | JNull
  | JVal (a : A).
Arguments JAbsent {A}.
Arguments JNull {A}.
Arguments JVal {A} a.

(** [x == null], the values on which a property read [x.p] and a
    destructuring [const { p } = x] raise a TypeError. *)
Definition nullish {A} (x : jsfield A) : bool :=
  match x with JVal _ => false | _ => true end.

(** ToNumber on a numeric property: [undefined] is NaN, [null] is +0. *)
Definition ToNumber (x : jsfield float) : float :=
  match x with
  | JAbsent => nan
  | JNull => zero
  | JVal n => n
  end.

(** ToBoolean on a number: false for +0, -0 and NaN ([=?] is the IEEE
    comparison, which identifies the two zeros). *)
Definition truthy (n : float) : bool :=
  negb (n =? zero)%float && negb (is_nan n).

(** [x || 0] on a numeric property. *)
Definition or_zero (x : jsfield float) : float :=
  match x with
  | JVal n => if truthy n then n else zero
  | _ => zero
  end.

(** [x || null] on a string property (the empty string is falsy). *)
Definition or_null (x : jsfield string) : option string :=
  match x with
  | JVal s => if decide (s = "") then None else Some s
  | _ => None
  end.

(** ** The stored record (index.js, lines 58-67) *)

Record activity_entry := {
  activity : option string;   (* [None] is a JSON null *)
  timestamp : string;
}.

Global Instance activity_entry_eq_dec : EqDecision activity_entry.
Proof. solve_decision. Defined.

Record user_doc := {
  uid : string;
  email : option string;
  referralLink : string;
  referredBy : option string;
  balance : jsfield float;
  teamCount : float;
  dailyActivities : jsfield (list activity_entry);
  createdAt : string;
}.

(** [t.update(userRef, { balance: b })]: only the named field changes. *)
Definition set_balance (b : float) (d : user_doc) : user_doc :=
  {| uid := uid d; email := email d; referralLink := referralLink d;
     referredBy := referredBy d; balance := JVal b;
     teamCount := teamCount d; dailyActivities := dailyActivities d;
     createdAt := createdAt d |}.

Definition set_dailyActivities (l : list activity_entry) (d : user_doc)
  : user_doc :=
  {| uid := uid d; email := email d; referralLink := referralLink d;
     referredBy := referredBy d; balance := balance d;
     teamCount := teamCount d; dailyActivities := JVal l;
     createdAt := createdAt d |}.

(** ** The two external stores

    [directory] is Firebase Auth seen through [getUserByEmail]: the
    account id registered for an email.  [users] is the Firestore
    collection [users], keyed by document id. *)
Record state := {
  directory : gmap string string;
  users : gmap string user_doc;
}.

Definition with_users (u : gmap string user_doc) (st : state) : state :=
  {| directory := directory st; users := u |}.

(** What the awaited services do on a call, independently of the
    handler: the directory lookup or the Firestore commit may fail
    (network, quota, contention after the SDK's retries). *)
Record faults := {
  directory_fails : bool;
  store_fails : bool;
}.

Definition no_faults : faults :=
  {| directory_fails := false; store_fails := false |}.

(** ** Requests and replies *)

Record customer_t := { customer_email : jsfield string }.

(** [transactionId] is the gateway's identifier of the event; the
    handler never reads it. *)
Record data_t := {
  data_customer : jsfield customer_t;
  data_amount : jsfield float;
  data_transactionId : jsfield string;
}.

(** [req.body] of the webhook as [bodyParser.json()] leaves it: an
    object, whose [event] and [data] may be missing. *)
Record webhook_body := {
  body_event : jsfield string;
  body_data : jsfield data_t;
}.

(** Header names are lower-cased by Node; the handler never reads them. *)
Record webhook_request := {
  headers : gmap string string;
  body : webhook_body;
}.

(** The header in which Paystack sends the HMAC of the raw body. *)
Definition signature_header (req : webhook_request) : option string :=
  headers req !! "x-paystack-signature".

(** What the caller of an async handler observes: a response with a
    status, or no response from the handler because it raised outside
    every [try] (its promise is rejected before [res] is used). *)
Inductive reply :=
  | Sent (status : nat)
  | Uncaught.

Definition client_error (r : reply) : bool :=
  match r with
  | Sent s => (400 <=? s)%nat && (s <? 500)%nat
  | Uncaught => false
  end.

(** The errors the webhook's [catch] block receives. *)
Inductive failure :=
  | DirectoryError        (* admin.auth().getUserByEmail rejected *)
  | InvalidDocumentPath   (* db.collection("users").doc(id) raised *)
  | LedgerRecordMissing   (* "User not found for successful transaction." *)
  | StoreError.           (* the Firestore call rejected *)

(** The lines written to the console. *)
Inductive log_line :=
  | LogRecharged (email : jsfield string) (amount : float)
  | LogError (e : failure).

(** ** admin.auth().getUserByEmail (index.js, line 127)

    Rejects for a missing or non-registered email and on a fault. *)
Definition getUserByEmail (f : faults) (st : state) (e : jsfield string)
  : option string :=
  if directory_fails f then None
  else match e with
       | JVal s => directory st !! s
       | _ => None
       end.

(** ** db.collection("users").doc(id)

    Firestore's [doc] refuses an empty path and a path containing
    "//", splits the path at "/", drops the empty segments a leading or
    trailing "/" leaves, and refuses the result unless, appended to
    the collection, it names a document: an odd number of segments.
    The document is identified by its segments, here joined by "/", so
    "u1" and "u1/" are the same document and "a/b" is refused. *)

(** The character "/". *)
Definition slash : Ascii.ascii := Eval cbv in Ascii.ascii_of_nat 47.

(** [s.split("/")]. *)
Fixpoint split_path (s : string) : list string :=
  match s with
  | EmptyString => [EmptyString]
  | String c r =>
      if Ascii.eqb c slash then EmptyString :: split_path r
      else match split_path r with
           | seg :: rest => String c seg :: rest
           | [] => [String c EmptyString]
           end
  end.

(** [s.indexOf("//") >= 0]. *)
Fixpoint double_slash (s : string) : bool :=
  match s with
  | EmptyString => false
  | String a r =>
      match r with
      | EmptyString => false
      | String b _ => (Ascii.eqb a slash && Ascii.eqb b slash) || double_slash r
      end
  end.

Definition segments (s : string) : list string :=
  filter (λ seg, seg ≠ "") (split_path s).

Fixpoint join_path (l : list string) : string :=
  match l with
  | [] => ""
  | seg :: rest =>
      match rest with
      | [] => seg
      | _ :: _ => seg ++ "/" ++ join_path rest
      end
  end.

Definition doc (id : jsfield string) : option string :=
  match id with
  | JVal s =>
      if decide (s = "") then None
      else if double_slash s then None
      else if Nat.odd (List.length (segments s))
           then Some (join_path (segments s))
           else None
  | _ => None
  end.

(** An id without "/": what the directory generates for an account. *)
Fixpoint plain (s : string) : bool :=
  match s with
  | EmptyString => true
  | String c r => negb (Ascii.eqb c slash) && plain r
  end.

(** ** The transaction body (index.js, lines 130-139) *)

(** [newBalance]: [(doc.data().balance || 0) + amount / 100]. *)
Definition newBalance (cur : jsfield float) (amount : jsfield float) : float :=
  (or_zero cur + ToNumber amount / 100)%float.

(** [db.runTransaction(...)]: Firestore runs the read and the write of
    the body as one atomic unit; the result is the error the body or
    the commit raised, or the collection after the commit. *)
Definition runTransaction (f : faults) (u : gmap string user_doc)
    (id : string) (amount : jsfield float)
  : failure + gmap string user_doc :=
  if store_fails f then inl StoreError
  else match u !! id with
       | None => inl LedgerRecordMissing        (* !doc.exists *)
       | Some d =>
           inr (<[id := set_balance (newBalance (balance d) amount) d]> u)
       end.

(** ** POST /paystack/webhook (index.js, lines 114-149) *)

Record outcome := {
  out_reply : reply;
  out_state : state;
  out_log : list log_line;
}.

Definition charge_success (event : jsfield string) : bool :=
  match event with
  | JVal s => bool_decide (s = "charge.success")
  | _ => false
  end.

(** Lines 128-145, once the directory has answered with [id]. *)
Definition credit_account (f : faults) (id : string)
    (email : jsfield string) (amount : jsfield float) (st : state)
  : outcome :=
  match doc (JVal id) with
  | None =>
      {| out_reply := Sent 200; out_state := st;
         out_log := [LogError InvalidDocumentPath] |}
  | Some ref =>
      match runTransaction f (users st) ref amount with
      | inl e =>
          {| out_reply := Sent 200; out_state := st;
             out_log := [LogError e] |}
      | inr u' =>
          {| out_reply := Sent 200; out_state := with_users u' st;
             out_log := [LogRecharged email (ToNumber amount / 100)%float] |}
      end
  end.

Definition webhook (f : faults) (req : webhook_request) (st : state)
  : outcome :=
  let event := body_event (body req) in
  let data := body_data (body req) in
  if charge_success event then
    match data with
    | JVal d =>
        match data_customer d with
        | JVal c =>
            let email := customer_email c in
            let amount := data_amount d in
            match getUserByEmail f st email with
            | None =>
                {| out_reply := Sent 200; out_state := st;
                   out_log := [LogError DirectoryError] |}
            | Some id => credit_account f id email amount st
            end
        | _ => (* const { email } = data.customer raises: line 123 *)
            {| out_reply := Uncaught; out_state := st; out_log := [] |}
        end
    | _ => (* data.customer raises: line 123 *)
        {| out_reply := Uncaught; out_state := st; out_log := [] |}
    end
  else {| out_reply := Sent 200; out_state := st; out_log := [] |}.

(** ** POST /signup (index.js, lines 51-74) *)

Record signup_body := {
  signup_email : jsfield string;
  signup_password : jsfield string;
  signup_referredBy : jsfield string;
}.

Definition generateReferralLink (id : string) : string :=
  "https://vest.com/ref/" ++ id.

(** [userData] (lines 58-67) for the account [id] with address [e]. *)
Definition userData (id : string) (e : option string)
    (referred : jsfield string) (now : string) : user_doc :=
  {| uid := id; email := e;
     referralLink := generateReferralLink id;
     referredBy := or_null referred;
     balance := JVal zero; teamCount := zero;
     dailyActivities := JVal [];
     createdAt := now |}.

(** The account [createUser] made becomes reachable by its address. *)
Definition register (e : jsfield string) (id : string) (st : state) : state :=
  match e with
  | JVal s => {| directory := <[s := id]> (directory st); users := users st |}
  | _ => st
  end.

Record signup_outcome := {
  signup_reply : reply;
  signup_user : option user_doc;   (* the [user] of the 201 body *)
  signup_state : state;
}.

(** [created] is the answer of [admin.auth().createUser]: the id of
    the new account, or [None] when the directory rejected the request
    (address taken or malformed, weak password, service error).  [now]
    is [new Date().toISOString()].  Firestore's [set] refuses a
    document with an [undefined] field, which [email] is when the body
    has none. *)
Definition signup (f : faults) (created : option string) (now : string)
    (req : signup_body) (st : state) : signup_outcome :=
  match created with
  | None =>
      {| signup_reply := Sent 400; signup_user := None; signup_state := st |}
  | Some id =>
      let st1 := register (signup_email req) id st in
      let rejected :=
        {| signup_reply := Sent 400; signup_user := None;
           signup_state := st1 |} in
      match doc (JVal id), signup_email req with
      | None, _ => rejected
      | Some _, JAbsent => rejected
      | Some ref, (JNull | JVal _) as e =>
          if store_fails f then rejected
          else
            let d := userData id (match e with JVal s => Some s | _ => None end)
                       (signup_referredBy req) now in
            {| signup_reply := Sent 201; signup_user := Some d;
               signup_state := with_users (<[ref := d]> (users st1)) st1 |}
      end
  end.

(** ** POST /activity (index.js, lines 152-166) *)

Record activity_body := {
  activity_uid : jsfield string;
  activity_label : jsfield string;
}.

(** [FieldValue.arrayUnion(e)] applied by the server: [e] is added at
    the end unless an equal element is already in the array; a field
    that holds no array is replaced by the array of [e] alone. *)
Definition arrayUnion (e : activity_entry)
    (cur : jsfield (list activity_entry)) : list activity_entry :=
  match cur with
  | JVal l => if decide (e ∈ l) then l else (l ++ [e])%list
  | _ => [e]
  end.

(** The element [{ activity, timestamp: new Date().toISOString() }] of
    lines 157-160 at time [now]; Firestore refuses it ([None]) when
    [activity] is [undefined]. *)
Definition entry_of (now : string) (req : activity_body)
  : option activity_entry :=
  match activity_label req with
  | JAbsent => None
  | JNull => Some {| activity := None; timestamp := now |}
  | JVal s => Some {| activity := Some s; timestamp := now |}
  end.

Record activity_outcome := {
  activity_reply : reply;
  activity_state : state;
}.

(** [update] validates its argument first, then fails when the
    document does not exist.  Every error is answered 500 (line 164). *)
Definition log_activity (f : faults) (now : string) (req : activity_body)
    (st : state) : activity_outcome :=
  let failed := {| activity_reply := Sent 500; activity_state := st |} in
  match doc (activity_uid req), entry_of now req with
  | Some ref, Some e =>
      if store_fails f then failed
      else match users st !! ref with
           | None => failed
           | Some d =>
               let d' :=
                 set_dailyActivities (arrayUnion e (dailyActivities d)) d in
               {| activity_reply := Sent 200;
                  activity_state := with_users (<[ref := d']> (users st)) st |}
           end
  | _, _ => failed
  end.

(** ** The webhook between its suspension points

    The handler gives up control at its two [await]s (lines 127 and
    130).  A request in flight is at one of these points; the directory
    lookup and the transaction are the steps that touch the stores, and
    the transaction is a single step because Firestore commits it
    atomically. *)
Inductive thread :=
  | Invoked (f : faults) (req : webhook_request)
  | AwaitDirectory (f : faults) (email : jsfield string)
      (amount : jsfield float)
  | AwaitTransaction (f : faults) (id : string) (email : jsfield string)
      (amount : jsfield float)
  | Finished (r : reply).

Definition finished (t : thread) : bool :=
  match t with Finished _ => true | _ => false end.

(** One step of a request: the next thread state, the stores and the
    console lines of the step. *)
Definition step (t : thread) (st : state) : thread * state * list log_line :=
  match t with
  | Invoked f req =>
      if charge_success (body_event (body req)) then
        match body_data (body req) with
        | JVal d =>
            match data_customer d with
            | JVal c =>
                (AwaitDirectory f (customer_email c) (data_amount d), st, [])
            | _ => (Finished Uncaught, st, [])
            end
        | _ => (Finished Uncaught, st, [])
        end
      else (Finished (Sent 200), st, [])
  | AwaitDirectory f email amount =>
      match getUserByEmail f st email with
      | None => (Finished (Sent 200), st, [LogError DirectoryError])
      | Some id =>
          match doc (JVal id) with
          | None => (Finished (Sent 200), st, [LogError InvalidDocumentPath])
          | Some ref => (AwaitTransaction f ref email amount, st, [])
          end
      end
  | AwaitTransaction f ref email amount =>
      match runTransaction f (users st) ref amount with
      | inl e => (Finished (Sent 200), st, [LogError e])
      | inr u' =>
          (Finished (Sent 200), with_users u' st,
           [LogRecharged email (ToNumber amount / 100)%float])
      end
  | Finished r => (Finished r, st, [])
  end.

(** A request served with nothing else running: its three steps. *)
Definition run_alone (t : thread) (st : state) : thread * state * list log_line :=
  let '(t1, s1, l1) := step t st in
  let '(t2, s2, l2) := step t1 s1 in
  let '(t3, s3, l3) := step t2 s2 in
  (t3, s3, (l1 ++ l2 ++ l3)%list).

(** Two requests in flight over the same stores. *)
Record config := {
  shared : state;
  first : thread;
  second : thread;
}.

Inductive turn := First | Second.

Definition advance (who : turn) (c : config) : config :=
  match who with
  | First =>
      let '(t, s, _) := step (first c) (shared c) in
      {| shared := s; first := t; second := second c |}
  | Second =>
      let '(t, s, _) := step (second c) (shared c) in
      {| shared := s; first := first c; second := t |}
  end.

(** An interleaving is the order in which the two requests take their
    steps. *)
Fixpoint interleave (sched : list turn) (c : config) : config :=
  match sched with
  | [] => c
  | who :: rest => interleave rest (advance who c)
  end.

Definition balance_of (id : string) (st : state) : option (jsfield float) :=
  balance <$> users st !! id.

(** ** POST /signin (index.js, lines 77-86) *)

Record signin_body := { signin_email : jsfield string }.

(** [signin_user] is the [user] of the 200 body; [doc.data()] is
    [undefined] for a missing document and [res.json] then omits the
    property. *)
Record signin_outcome := {
  signin_reply : reply;
  signin_user : option user_doc;
}.

Definition signin (f : faults) (req : signin_body) (st : state)
  : signin_outcome :=
  let failed := {| signin_reply := Sent 400; signin_user := None |} in
  match getUserByEmail f st (signin_email req) with
  | None => failed
  | Some id =>
      match doc (JVal id) with
      | None => failed
      | Some ref =>
          if store_fails f then failed
          else {| signin_reply := Sent 200; signin_user := users st !! ref |}
      end
  end.

(** ** GET /user/:uid (index.js, lines 169-178)

    [id] is [req.params.uid], a string. *)
Record user_outcome := {
  user_reply : reply;
  user_body : option user_doc;
}.

Definition get_user (f : faults) (id : string) (st : state) : user_outcome :=
  match doc (JVal id) with
  | None => {| user_reply := Sent 500; user_body := None |}
  | Some ref =>
      if store_fails f then {| user_reply := Sent 500; user_body := None |}
      else match users st !! ref with
           | None => {| user_reply := Sent 404; user_body := None |}
           | Some d => {| user_reply := Sent 200; user_body := Some d |}
           end
  end.

(** ** Invariants and views of the stores *)

(** No activity log holds the same entry twice. *)
Definition logs_distinct (st : state) : Prop :=
  ∀ id d l, users st !! id = Some d → dailyActivities d = JVal l → NoDup l.

(** The record on which a webhook request runs its transaction and
    the amount it credits, when it gets that far: the request is a
    "charge.success" with a readable customer, the directory knows the
    payer and no service fails. *)
Definition credit_target (f : faults) (req : webhook_request) (st : state)
  : option (string * jsfield float) :=
  if charge_success (body_event (body req)) then
    match body_data (body req) with
    | JVal d =>
        match data_customer d with
        | JVal c =>
            match getUserByEmail f st (customer_email c) with
            | Some id =>
                match doc (JVal id) with
                | Some ref =>
                    if store_fails f then None else Some (ref, data_amount d)
                | None => None
                end
            | None => None
            end
        | _ => None
        end
    | _ => None
    end
  else None.

(** The record and the entry of an activity request that passes the
    checks made before the store is read. *)
Definition activity_target (f : faults) (now : string) (req : activity_body)
  : option (string * activity_entry) :=
  match doc (activity_uid req), entry_of now req with
  | Some ref, Some e => if store_fails f then None else Some (ref, e)
  | _, _ => None
  end.

(** ** Inputs of the statements *)

(** A [charge.success] notification for the payer [e] and the amount
    [a] (in kobo), with gateway event id [tx]. *)
Definition notification (h : gmap string string) (e : jsfield string)
    (a : jsfield float) (tx : jsfield string) : webhook_request :=
  {| headers := h;
     body := {| body_event := JVal "charge.success";
                body_data :=
                  JVal {| data_customer := JVal {| customer_email := e |};
                          data_amount := a;
                          data_transactionId := tx |} |} |}.

(** Line 123 is reached and raises: the event is "charge.success" and
    [data] or [data.customer] is missing or null. *)
Definition customer_unreadable (b : webhook_body) : bool :=
  charge_success (body_event b) &&
  match body_data b with
  | JVal d => nullish (data_customer d)
  | _ => true
  end.

(** No account is registered for the payer's address. *)
Definition unknown_email (st : state) (e : jsfield string) : Prop :=
  ∀ s, e = JVal s → directory st !! s = None.

(** [!balance]: the stored balance is missing, null, a zero or NaN. *)
Definition falsy (x : jsfield float) : bool :=
  match x with
  | JVal n => negb (truthy n)
  | _ => true
  end.

(** Two webhook requests arriving together. *)
Definition two_requests (st : state) (fa fb : faults)
    (ra rb : webhook_request) : config :=
  {| shared := st; first := Invoked fa ra; second := Invoked fb rb |}.

(** The stored balance after a credit of [a] on the balance [cur]. *)
Definition credited (cur : jsfield float) (a : jsfield float) : jsfield float :=
  JVal (newBalance cur a).

(** ** Two credits in flight for the record [id]

    The vocabulary of the interleaving argument.  [pending] is a
    request for the payer [e] and the amount [x] that has not reached
    its commit; [stored n] is the state in which the record, [d] at the
    start, holds the balance [n] and nothing else has changed. *)
Definition pending (id : string) (r : webhook_request) (e : jsfield string)
    (x : jsfield float) (t : thread) : Prop :=
  t = Invoked no_faults r ∨
  t = AwaitDirectory no_faults e x ∨
  t = AwaitTransaction no_faults id e x.

Definition stored (st : state) (id : string) (d : user_doc) (n : float)
  : state :=
  with_users (<[id := set_balance n d]> (users st)) st.

(** The configurations two successful credits [ra] (payer [ea], amount
    [a]) and [rb] (payer [eb], amount [b]) can be in: none, one or both
    committed, and in the last case in which order. *)
Definition serial (st : state) (id : string) (d : user_doc)
    (ra rb : webhook_request) (ea eb : jsfield string)
    (a b : jsfield float) (c : config) : Prop :=
  (shared c = st ∧
   pending id ra ea a (first c) ∧ pending id rb eb b (second c)) ∨
  (shared c = stored st id d (newBalance (balance d) a) ∧
   first c = Finished (Sent 200) ∧ pending id rb eb b (second c)) ∨
  (shared c = stored st id d (newBalance (balance d) b) ∧
   pending id ra ea a (first c) ∧ second c = Finished (Sent 200)) ∨
  (shared c = stored st id d (newBalance (credited (balance d) a) b) ∧
   first c = Finished (Sent 200) ∧ second c = Finished (Sent 200)) ∨
  (shared c = stored st id d (newBalance (credited (balance d) b) a) ∧
   first c = Finished (Sent 200) ∧ second c = Finished (Sent 200)).

(** The configurations two successful credits on two different
    records, [ida] and [idb], can be in: none, one or both committed. *)
Definition independent (st : state) (ida idb : string) (da db : user_doc)
    (ra rb : webhook_request) (ea eb : jsfield string)
    (a b : jsfield float) (c : config) : Prop :=
  (shared c = st ∧
   pending ida ra ea a (first c) ∧ pending idb rb eb b (second c)) ∨
  (shared c = stored st ida da (newBalance (balance da) a) ∧
   first c = Finished (Sent 200) ∧ pending idb rb eb b (second c)) ∨
  (shared c = stored st idb db (newBalance (balance db) b) ∧
   pending ida ra ea a (first c) ∧ second c = Finished (Sent 200)) ∨
  (shared c =
   stored (stored st ida da (newBalance (balance da) a))
     idb db (newBalance (balance db) b) ∧
   first c = Finished (Sent 200) ∧ second c = Finished (Sent 200)).

(** ** Progress of a request and histories of the stores *)

(** How far a request has got: the number of steps behind it, three
    once it has answered. *)
Definition stage (t : thread) : nat :=
  match t with
  | Invoked _ _ => 0
  | AwaitDirectory _ _ _ => 1
  | AwaitTransaction _ _ _ _ => 2
  | Finished _ => 3
  end.

(** The number of steps an interleaving gives to a request. *)
Fixpoint turns (who : turn) (sched : list turn) : nat :=
  match sched with
  | [] => 0
  | w :: rest =>
      match who, w with
      | First, First | Second, Second => S (turns who rest)
      | _, _ => turns who rest
      end
  end.

(** The stores the three writing handlers can produce, starting with
    an empty directory and an empty collection. *)
Inductive grown : state → Prop :=
  | grown_empty : grown {| directory := ∅; users := ∅ |}
  | grown_signup f created now req st :
      grown st → grown (signup_state (signup f created now req st))
  | grown_webhook f req st :
      grown st → grown (out_state (webhook f req st))
  | grown_activity f now req st :
      grown st → grown (activity_state (log_activity f now req st)).

(** ** Proof tools *)

(** Closes a goal whose hypothesis [H] equates two stored balances
    that are different float constants. *)
Ltac float_clash H :=
  lazymatch type of H with
  | Some (JVal ?x) = Some (JVal ?y) =>
      let E := fresh in
      assert (E : PrimFloat.Leibniz.eqb x x = PrimFloat.Leibniz.eqb x y)
        by exact (f_equal (fun o => match o with
                                    | Some (JVal z) => PrimFloat.Leibniz.eqb x z
                                    | _ => true
                                    end) H);
      vm_compute in E; discriminate E
  end.

(** * Facts about the stored record and its path *)

Lemma split_path_plain s : plain s = true → split_path s = [s].
Proof.
  induction s as [|c r IH]; [done|]. simpl.
  intros [Hc Hr]%andb_prop. apply negb_true_iff in Hc. rewrite Hc.
  by rewrite (IH Hr).
Qed.

Lemma double_slash_plain s : plain s = true → double_slash s = false.
Proof.
  induction s as [|c r IH]; [done|]. simpl.
  intros [Hc Hr]%andb_prop. apply negb_true_iff in Hc.
  destruct r as [|c' r']; [done|]. by rewrite Hc, (IH Hr).
Qed.

(** An id without "/" names the document of that id. *)
Lemma doc_plain s : s ≠ "" → plain s = true → doc (JVal s) = Some s.
Proof.
  intros Hne Hs. unfold doc, segments.
  rewrite decide_False by done.
  rewrite (double_slash_plain _ Hs), (split_path_plain _ Hs).
  rewrite filter_cons_True by done. by rewrite filter_nil.
Qed.

(** Paths with a leading or trailing "/" name the same document;
    paths with an even number of segments name none. *)
Lemma doc_paths :
  doc (JVal "u1/") = Some "u1" ∧ doc (JVal "/u1") = Some "u1" ∧
  doc (JVal "a/b/c") = Some "a/b/c" ∧
  doc (JVal "a/b") = None ∧ doc (JVal "/") = None ∧
  doc (JVal "a//b/c") = None ∧ doc (JVal "") = None.
Proof. repeat split; reflexivity. Qed.

Lemma set_balance_same d n : balance d = JVal n → set_balance n d = d.
Proof. destruct d; simpl. by intros ->. Qed.

(** * The webhook, one request at a time *)

(** A successful credit: the payer is registered, the account id names
    the document [ref], the record exists and neither service fails. *)
Lemma webhook_credits h e a tx st id ref d :
  directory st !! e = Some id → doc (JVal id) = Some ref →
  users st !! ref = Some d →
  webhook no_faults (notification h (JVal e) a tx) st =
  {| out_reply := Sent 200;
     out_state :=
       with_users (<[ref := set_balance (newBalance (balance d) a) d]> (users st)) st;
     out_log := [LogRecharged (JVal e) (ToNumber a / 100)%float] |}.
Proof.
  intros He Hdoc Hd. unfold webhook, notification; cbn [body body_event body_data].
  change (charge_success (JVal "charge.success")) with true.
  cbn [data_customer customer_email data_amount].
  unfold getUserByEmail; cbn [directory_fails no_faults]. rewrite He.
  unfold credit_account. rewrite Hdoc.
  unfold runTransaction; cbn [store_fails no_faults]. by rewrite Hd.
Qed.

(** The state after a webhook request, from its target. *)
Lemma webhook_state f req st :
  out_state (webhook f req st) =
  match credit_target f req st with
  | Some (ref, a) =>
      match users st !! ref with
      | Some d => stored st ref d (newBalance (balance d) a)
      | None => st
      end
  | None => st
  end.
Proof.
  unfold webhook, credit_target.
  destruct (charge_success _); [|done].
  destruct (body_data _) as [| |d]; [done..|].
  destruct (data_customer d) as [| |c]; [done..|]. cbn zeta.
  destruct (getUserByEmail _ _ _) as [uid0|]; [|done].
  unfold credit_account. destruct (doc _) as [ref|]; [|done].
  unfold runTransaction. destruct (store_fails f); [done|].
  by destruct (users st !! ref).
Qed.

Lemma credit_target_directory f req st st' :
  directory st' = directory st →
  credit_target f req st' = credit_target f req st.
Proof.
  intros Hdir. unfold credit_target, getUserByEmail. by rewrite Hdir.
Qed.

(** The handler written as one function is the request run through its
    three steps. *)
Lemma run_alone_webhook f req st :
  run_alone (Invoked f req) st =
  (Finished (out_reply (webhook f req st)),
   out_state (webhook f req st),
   out_log (webhook f req st)).
Proof.
  unfold run_alone, webhook; cbn [step].
  destruct (charge_success _); [|done].
  destruct (body_data _) as [| |d]; [done..|].
  destruct (data_customer d) as [| |c]; [done..|]. cbn [step].
  destruct (getUserByEmail _ _ _) as [uid0|]; [|done].
  unfold credit_account.
  destruct (doc _) as [ref|]; [|done]. cbn [step].
  by destruct (runTransaction _ _ _ _).
Qed.

(** The handler raises outside its [try] exactly on a "charge.success"
    whose [data.customer] cannot be read; every other request is
    answered 200. *)
Lemma webhook_reply f req st :
  out_reply (webhook f req st) =
  if customer_unreadable (body req) then Uncaught else Sent 200.
Proof.
  unfold customer_unreadable, webhook.
  destruct (charge_success _); [|done]. simpl.
  destruct (body_data _) as [| |d]; [done..|].
  destruct (data_customer d) as [| |c]; [done..|]. simpl.
  destruct (getUserByEmail _ _ _) as [uid0|]; [|done].
  unfold credit_account. destruct (doc _) as [ref|]; [|done].
  by destruct (runTransaction _ _ _ _).
Qed.

(** C8. Non-success events: a request whose event is not
    "charge.success" (for instance "charge.failed", or no event at all)
    is answered 200 and leaves every stored record, and so every
    balance, as it was. *)
Theorem webhook_other_event f req st :
  body_event (body req) ≠ JVal "charge.success" →
  out_reply (webhook f req st) = Sent 200 ∧
  out_state (webhook f req st) = st.
Proof.
  intros Hev. unfold webhook.
  assert (charge_success (body_event (body req)) = false) as ->; [|done].
  destruct (body_event (body req)) as [| |s]; simpl; try done.
  apply bool_decide_eq_false. congruence.
Qed.

Lemma webhook_other_event_witness :
  let req := {| headers := ∅;
                body := {| body_event := JVal "charge.failed";
                           body_data := JAbsent |} |} in
  let st := {| directory := ∅; users := ∅ |} in
  out_reply (webhook no_faults req st) = Sent 200 ∧
  out_state (webhook no_faults req st) = st.
Proof. intros req st. apply (webhook_other_event no_faults req st). discriminate. Defined.

(** C6. Unknown-user safety: a "charge.success" notification whose
    payer email is registered for no account is acknowledged with 200,
    changes no record, does not raise, and leaves one error line on
    the console. *)
Theorem webhook_unknown_user f h e a tx st :
  unknown_email st e →
  webhook f (notification h e a tx) st =
  {| out_reply := Sent 200; out_state := st;
     out_log := [LogError DirectoryError] |}.
Proof.
  intros Hunk. unfold webhook; simpl.
  assert (getUserByEmail f st e = None) as ->; [|done].
  unfold getUserByEmail. destruct (directory_fails f); [done|].
  destruct e as [| |s]; try done. by apply Hunk.
Qed.

Lemma webhook_unknown_user_witness :
  let st := {| directory := {[ "a@x.com" := "u1" ]}; users := ∅ |} in
  unknown_email st (JVal "nobody@x.com") ∧
  webhook no_faults
    (notification ∅ (JVal "nobody@x.com") (JVal 50000%float) (JVal "T1")) st =
  {| out_reply := Sent 200; out_state := st;
     out_log := [LogError DirectoryError] |}.
Proof.
  intros st.
  assert (H : unknown_email st (JVal "nobody@x.com")).
  { intros s [= <-]. reflexivity. }
  split; [exact H|].
  exact (webhook_unknown_user no_faults ∅ _ _ _ st H).
Defined.

(** C5. Acknowledgement policy, as the handler implements it: every
    request that is not a "charge.success" without [data.customer] is
    answered 200, whatever its headers (no signature is checked, so
    none can be refused) and whatever fails while it is processed:
    unknown payer, missing ledger record, failing directory or
    transaction. *)
Theorem webhook_acknowledges f req st :
  customer_unreadable (body req) = false →
  out_reply (webhook f req st) = Sent 200.
Proof. intros Hok. by rewrite webhook_reply, Hok. Qed.

Lemma webhook_acknowledges_witness :
  let req := notification ∅ (JVal "a@x.com") (JVal 50000%float) JAbsent in
  let f := {| directory_fails := false; store_fails := true |} in
  let st := {| directory := {[ "a@x.com" := "u1" ]}; users := ∅ |} in
  customer_unreadable (body req) = false ∧
  out_reply (webhook f req st) = Sent 200.
Proof.
  intros req f st. split; [reflexivity|].
  apply (webhook_acknowledges f req st). reflexivity.
Defined.

(** C5, counterexample: a request that carries no signature header,
    which no verification could accept, is answered 200. *)
Lemma webhook_acknowledges_unsigned :
  let req := {| headers := {[ "content-type" := "application/json" ]};
                body := {| body_event := JVal "charge.failed";
                           body_data := JAbsent |} |} in
  let st := {| directory := ∅; users := ∅ |} in
  signature_header req = None ∧
  out_reply (webhook no_faults req st) = Sent 200.
Proof. split; reflexivity. Qed.

(** C7. Malformed payloads, as the handler treats them: a
    "charge.success" whose [data] or [data.customer] is missing or null
    changes no record, and the handler does not answer it with a
    client error (no path of the webhook sends a 4xx status). *)
Theorem webhook_malformed f req st :
  customer_unreadable (body req) = true →
  out_state (webhook f req st) = st ∧
  client_error (out_reply (webhook f req st)) = false.
Proof.
  unfold customer_unreadable, webhook. intros Hbad.
  destruct (charge_success _); [|done]. simpl in Hbad.
  destruct (body_data _) as [| |d]; [done..|].
  by destruct (data_customer d) as [| |c].
Qed.

Lemma webhook_malformed_witness :
  let req := {| headers := ∅;
                body := {| body_event := JVal "charge.success";
                           body_data :=
                             JVal {| data_customer := JNull;
                                     data_amount := JVal 50000%float;
                                     data_transactionId := JVal "T7" |} |} |} in
  let st := {| directory := {[ "a@x.com" := "u1" ]}; users := ∅ |} in
  customer_unreadable (body req) = true ∧
  out_state (webhook no_faults req st) = st ∧
  client_error (out_reply (webhook no_faults req st)) = false.
Proof.
  intros req st. split; [reflexivity|].
  apply (webhook_malformed no_faults req st). reflexivity.
Defined.

(** C7, counterexample: the body [{"event": "charge.success"}] has no
    [data]; what the handler does with it is not a client error. *)
Lemma webhook_malformed_no_client_error :
  let req := {| headers := ∅;
                body := {| body_event := JVal "charge.success";
                           body_data := JAbsent |} |} in
  let st := {| directory := ∅; users := ∅ |} in
  customer_unreadable (body req) = true ∧
  client_error (out_reply (webhook no_faults req st)) = false.
Proof. split; reflexivity. Qed.

(** C2. Unverifiable input, as the handler treats it.  The headers
    play no part: a request is handled exactly as the same body with
    any other headers, so whatever its signature header a
    "charge.success" for a registered payer with a record is
    acknowledged with 200 and credited.  And whatever the request, the
    handler leaves the directory alone and either writes nothing or
    replaces, in the record of the payer the request names, the balance
    by (balance || 0) + amount / 100; it keeps no record of processed
    event ids. *)
Theorem webhook_ignores_signature f h h' b st :
  let o := webhook f {| headers := h; body := b |} st in
  o = webhook f {| headers := h'; body := b |} st ∧
  directory (out_state o) = directory st ∧
  (users (out_state o) = users st ∨
   ∃ dt c id ref d,
     body_data b = JVal dt ∧ data_customer dt = JVal c ∧
     getUserByEmail f st (customer_email c) = Some id ∧
     doc (JVal id) = Some ref ∧ users st !! ref = Some d ∧
     users (out_state o) =
     <[ref := {| uid := uid d; email := email d;
                 referralLink := referralLink d; referredBy := referredBy d;
                 balance :=
                   JVal (or_zero (balance d) + ToNumber (data_amount dt) / 100)%float;
                 teamCount := teamCount d;
                 dailyActivities := dailyActivities d;
                 createdAt := createdAt d |}]> (users st)) ∧
  ∀ e a tx id ref d,
    directory st !! e = Some id → doc (JVal id) = Some ref →
    users st !! ref = Some d →
    out_reply (webhook no_faults (notification h (JVal e) a tx) st) = Sent 200 ∧
    balance_of ref
      (out_state (webhook no_faults (notification h (JVal e) a tx) st)) =
    Some (JVal (or_zero (balance d) + ToNumber a / 100)%float).
Proof.
  intros o. split; [reflexivity|]. split; [|split].
  - unfold o, webhook.
    destruct (charge_success _); [|done].
    destruct (body_data _) as [| |dt]; [done..|].
    destruct (data_customer dt) as [| |c]; [done..|]. cbn zeta.
    destruct (getUserByEmail _ _ _) as [id|]; [|done].
    unfold credit_account. destruct (doc _) as [ref|]; [|done].
    by destruct (runTransaction _ _ _ _).
  - unfold o, webhook; cbn [body].
    destruct (charge_success _); [|by left].
    destruct (body_data b) as [| |dt]; [by left..|].
    destruct (data_customer dt) as [| |c] eqn:Hc; [by left..|]. cbn zeta.
    destruct (getUserByEmail _ _ _) as [id|] eqn:Hid; [|by left].
    unfold credit_account. destruct (doc _) as [ref|] eqn:Hdoc; [|by left].
    unfold runTransaction. destruct (store_fails f); [by left|].
    destruct (users st !! ref) as [d|] eqn:Hd; [|by left].
    right. exists dt, c, id, ref, d. repeat split; done.
  - intros e a tx id ref d He Hdoc Hd.
    rewrite (webhook_credits h e a tx st id ref d He Hdoc Hd).
    split; [done|]. unfold balance_of. cbn [out_state users with_users].
    by rewrite lookup_insert_eq.
Qed.

Lemma webhook_ignores_signature_witness :
  let d := userData "u1" (Some "a@x.com") JAbsent "2026-01-01T00:00:00.000Z" in
  let st := {| directory := {[ "a@x.com" := "u1" ]};
               users := {[ "u1" := d ]} |} in
  let req := notification ∅ (JVal "a@x.com") (JVal 50000%float) (JVal "T1") in
  signature_header req = None ∧
  out_reply (webhook no_faults req st) = Sent 200 ∧
  balance_of "u1" (out_state (webhook no_faults req st)) = Some (JVal 500%float).
Proof.
  intros d st req. split; [reflexivity|].
  exact (proj2 (proj2 (proj2
           (webhook_ignores_signature no_faults ∅ ∅ (body req) st)))
           "a@x.com" (JVal 50000%float) (JVal "T1") "u1" "u1" d
           eq_refl eq_refl eq_refl).
Defined.

(** C2, counterexample: a notification without any signature header is
    acknowledged and credits the payer. *)
Lemma webhook_unsigned_credits :
  let d := userData "u1" (Some "a@x.com") JAbsent "2026-01-01T00:00:00.000Z" in
  let st := {| directory := {[ "a@x.com" := "u1" ]};
               users := {[ "u1" := d ]} |} in
  let req := notification ∅ (JVal "a@x.com") (JVal 50000%float) (JVal "T1") in
  signature_header req = None ∧
  out_reply (webhook no_faults req st) = Sent 200 ∧
  balance_of "u1" st = Some (JVal 0%float) ∧
  balance_of "u1" (out_state (webhook no_faults req st)) = Some (JVal 500%float) ∧
  balance_of "u1" (out_state (webhook no_faults req st)) ≠ balance_of "u1" st.
Proof.
  repeat split; try reflexivity.
  vm_compute. intros H. float_clash H.
Qed.

Lemma or_zero_falsy x : falsy x = true → or_zero x = zero.
Proof.
  destruct x as [| |n]; simpl; try done.
  by destruct (truthy n).
Qed.

(** C10. Missing-balance fallback: when the payer's record exists but
    its balance is absent, null, zero or NaN, a successful
    notification is acknowledged with 200 and the balance stored in
    the record afterwards is 0 + amount / 100. *)
Theorem webhook_missing_balance h e a tx st id ref d :
  directory st !! e = Some id → doc (JVal id) = Some ref →
  users st !! ref = Some d → falsy (balance d) = true →
  out_reply (webhook no_faults (notification h (JVal e) a tx) st) = Sent 200 ∧
  balance_of ref (out_state (webhook no_faults (notification h (JVal e) a tx) st)) =
  Some (JVal (zero + ToNumber a / 100)%float).
Proof.
  intros He Hdoc Hd Hfalsy.
  rewrite (webhook_credits h e a tx st id ref d He Hdoc Hd).
  split; [done|]. unfold balance_of. cbn [out_state users with_users].
  rewrite lookup_insert_eq. cbn [fmap option_fmap option_map balance set_balance].
  unfold newBalance. by rewrite (or_zero_falsy _ Hfalsy).
Qed.

Lemma webhook_missing_balance_witness :
  let d := {| uid := "u1"; email := Some "a@x.com";
              referralLink := generateReferralLink "u1";
              referredBy := None; balance := JAbsent; teamCount := zero;
              dailyActivities := JVal [];
              createdAt := "2026-01-01T00:00:00.000Z" |} in
  let st := {| directory := {[ "a@x.com" := "u1" ]};
               users := {[ "u1" := d ]} |} in
  let req := notification ∅ (JVal "a@x.com") (JVal 2500%float) (JVal "T10") in
  balance_of "u1" st = Some JAbsent ∧
  out_reply (webhook no_faults req st) = Sent 200 ∧
  balance_of "u1" (out_state (webhook no_faults req st)) = Some (JVal 25%float).
Proof.
  intros d st req. split; [reflexivity|].
  exact (webhook_missing_balance ∅ "a@x.com" (JVal 2500%float) (JVal "T10")
           st "u1" "u1" d eq_refl eq_refl eq_refl eq_refl).
Defined.

(** C1. Redelivery, as the handler implements it: the gateway event id
    is not read and no delivery is remembered, so a successful
    notification delivered twice is acknowledged twice and credited
    twice.  With [s] the stored balance and [a] the amount, the balance
    is (s || 0) + a / 100 after the first delivery and
    (((s || 0) + a / 100) || 0) + a / 100 after the second. *)
Theorem webhook_redelivery h e a tx st id ref d :
  directory st !! e = Some id → doc (JVal id) = Some ref →
  users st !! ref = Some d →
  let req := notification h (JVal e) a tx in
  let o1 := webhook no_faults req st in
  let o2 := webhook no_faults req (out_state o1) in
  out_reply o1 = Sent 200 ∧ out_reply o2 = Sent 200 ∧
  balance_of ref (out_state o1) =
  Some (JVal (or_zero (balance d) + ToNumber a / 100)%float) ∧
  balance_of ref (out_state o2) =
  Some (JVal (or_zero (JVal (or_zero (balance d) + ToNumber a / 100)%float)
              + ToNumber a / 100)%float).
Proof.
  intros He Hdoc Hd req o1 o2.
  assert (E1 := webhook_credits h e a tx st id ref d He Hdoc Hd).
  fold req in E1. fold o1 in E1.
  assert (Hd1 : users (out_state o1) !! ref =
                Some (set_balance (newBalance (balance d) a) d)).
  { rewrite E1. simpl. apply lookup_insert_eq. }
  assert (He1 : directory (out_state o1) !! e = Some id).
  { rewrite E1. exact He. }
  assert (E2 := webhook_credits h e a tx (out_state o1) id ref _ He1 Hdoc Hd1).
  fold req in E2. fold o2 in E2.
  rewrite E2, E1. unfold balance_of. simpl.
  rewrite !lookup_insert_eq. done.
Qed.

Lemma webhook_redelivery_witness :
  let d := {| uid := "u7"; email := Some "b@x.com";
              referralLink := generateReferralLink "u7";
              referredBy := None; balance := JVal 200%float;
              teamCount := zero; dailyActivities := JVal [];
              createdAt := "2026-01-01T00:00:00.000Z" |} in
  let st := {| directory := {[ "b@x.com" := "u7" ]};
               users := {[ "u7" := d ]} |} in
  let req := notification ∅ (JVal "b@x.com") (JVal 2500%float) (JVal "T1") in
  let o1 := webhook no_faults req st in
  let o2 := webhook no_faults req (out_state o1) in
  out_reply o1 = Sent 200 ∧ out_reply o2 = Sent 200 ∧
  balance_of "u7" (out_state o1) = Some (JVal 225%float) ∧
  balance_of "u7" (out_state o2) = Some (JVal 250%float).
Proof.
  intros d st req.
  exact (webhook_redelivery ∅ "b@x.com" (JVal 2500%float) (JVal "T1") st
           "u7" "u7" d eq_refl eq_refl eq_refl).
Defined.

(** C1, counterexample: a user with balance 200 receives the same
    notification of 2500 kobo twice, with the same event id; the
    balance ends at 250, not at the 225 of a single credit. *)
Lemma webhook_redelivery_not_idempotent :
  let d := {| uid := "u7"; email := Some "b@x.com";
              referralLink := generateReferralLink "u7";
              referredBy := None; balance := JVal 200%float;
              teamCount := zero; dailyActivities := JVal [];
              createdAt := "2026-01-01T00:00:00.000Z" |} in
  let st := {| directory := {[ "b@x.com" := "u7" ]};
               users := {[ "u7" := d ]} |} in
  let req := notification ∅ (JVal "b@x.com") (JVal 2500%float) (JVal "T1") in
  let o1 := webhook no_faults req st in
  let o2 := webhook no_faults req (out_state o1) in
  balance_of "u7" (out_state o2) = Some (JVal 250%float) ∧
  balance_of "u7" (out_state o2) ≠ Some (JVal (200 + 2500 / 100)%float).
Proof.
  split; [reflexivity|].
  vm_compute. intros H. float_clash H.
Qed.
(** C4. The round trip, as the code runs it: a signup for "a@x.com"
    stores, in the document [key] that the new account id names, a
    record with balance 0; a "charge.success" for that address
    and 50000 kobo makes the balance 500; delivering the identical
    notification again makes it 1000. *)
Theorem signup_then_webhook st id key now pw ref h tx :
  doc (JVal id) = Some key →
  let s1 := signup_state
              (signup no_faults (Some id) now
                 {| signup_email := JVal "a@x.com"; signup_password := pw;
                    signup_referredBy := ref |} st) in
  let req := notification h (JVal "a@x.com") (JVal 50000%float) tx in
  let s2 := out_state (webhook no_faults req s1) in
  let s3 := out_state (webhook no_faults req s2) in
  balance_of key s1 = Some (JVal 0%float) ∧
  balance_of key s2 = Some (JVal 500%float) ∧
  balance_of key s3 = Some (JVal 1000%float).
Proof.
  intros Hid s1 req s2 s3.
  set (d := userData id (Some "a@x.com") ref now).
  assert (Hs1 : s1 = {| directory := <["a@x.com" := id]> (directory st);
                        users := <[key := d]> (users st) |}).
  { unfold s1, signup. rewrite Hid. reflexivity. }
  assert (E2 := webhook_credits h "a@x.com" (JVal 50000%float) tx s1 id key d).
  fold req in E2.
  rewrite Hs1 in E2 at 1 2 3. simpl in E2.
  rewrite !lookup_insert_eq in E2. specialize (E2 eq_refl Hid eq_refl).
  rewrite <- Hs1 in E2.
  assert (Hd2 : users s2 !! key =
                Some (set_balance (newBalance (JVal zero) (JVal 50000%float)) d)).
  { unfold s2. rewrite E2. simpl. apply lookup_insert_eq. }
  assert (He2 : directory s2 !! "a@x.com" = Some id).
  { unfold s2. rewrite E2, Hs1. simpl. apply lookup_insert_eq. }
  assert (E3 := webhook_credits h "a@x.com" (JVal 50000%float) tx s2 id key _
                  He2 Hid Hd2).
  fold req in E3.
  unfold balance_of. split; [|split].
  - rewrite Hs1. simpl. by rewrite lookup_insert_eq.
  - by rewrite Hd2.
  - unfold s3. rewrite E3. simpl. by rewrite lookup_insert_eq.
Qed.

Lemma signup_then_webhook_witness :
  let st := {| directory := ∅; users := ∅ |} in
  let s1 := signup_state
              (signup no_faults (Some "u1") "2026-01-01T00:00:00.000Z"
                 {| signup_email := JVal "a@x.com";
                    signup_password := JVal "hunter22";
                    signup_referredBy := JAbsent |} st) in
  let req := notification ∅ (JVal "a@x.com") (JVal 50000%float) (JVal "T1") in
  let s2 := out_state (webhook no_faults req s1) in
  let s3 := out_state (webhook no_faults req s2) in
  balance_of "u1" s1 = Some (JVal 0%float) ∧
  balance_of "u1" s2 = Some (JVal 500%float) ∧
  balance_of "u1" s3 = Some (JVal 1000%float).
Proof.
  intros st.
  apply (signup_then_webhook st "u1" "u1" "2026-01-01T00:00:00.000Z"
           (JVal "hunter22") JAbsent ∅ (JVal "T1")).
  reflexivity.
Defined.

(** C4, counterexample: in the example of the specification the
    balance after the second delivery is not 500. *)
Lemma signup_then_webhook_redelivered :
  let st := {| directory := ∅; users := ∅ |} in
  let s1 := signup_state
              (signup no_faults (Some "u1") "2026-01-01T00:00:00.000Z"
                 {| signup_email := JVal "a@x.com";
                    signup_password := JVal "hunter22";
                    signup_referredBy := JAbsent |} st) in
  let req := notification ∅ (JVal "a@x.com") (JVal 50000%float) (JVal "T1") in
  let s2 := out_state (webhook no_faults req s1) in
  let s3 := out_state (webhook no_faults req s2) in
  balance_of "u1" s2 = Some (JVal 500%float) ∧
  balance_of "u1" s3 ≠ Some (JVal 500%float).
Proof.
  split; [reflexivity|].
  vm_compute. intros H. float_clash H.
Qed.

(** * The activity log *)

(** C9. Activity logging, as [arrayUnion] performs it: for a request
    with an [activity] (a string or null) on an existing user, the
    entry {activity, timestamp} is added at the end of
    [dailyActivities] unless an equal entry is already there, in which
    case the sequence stays as it is; earlier entries keep their values
    and order, no other field of the record changes, and no other
    record and no directory entry changes. *)
Theorem log_activity_union now req st ref d l act :
  doc (activity_uid req) = Some ref → users st !! ref = Some d →
  dailyActivities d = JVal l →
  activity_label req = match act with Some s => JVal s | None => JNull end →
  let e := {| activity := act; timestamp := now |} in
  let o := log_activity no_faults now req st in
  activity_reply o = Sent 200 ∧
  directory (activity_state o) = directory st ∧
  (∀ u', u' ≠ ref → users (activity_state o) !! u' = users st !! u') ∧
  users (activity_state o) !! ref =
  Some {| uid := uid d; email := email d; referralLink := referralLink d;
          referredBy := referredBy d; balance := balance d;
          teamCount := teamCount d;
          dailyActivities := JVal (if decide (e ∈ l) then l else (l ++ [e])%list);
          createdAt := createdAt d |}.
Proof.
  intros Hu Hd Hl Hact e o. unfold o, log_activity.
  assert (entry_of now req = Some e) as ->.
  { unfold entry_of. rewrite Hact. by destruct act. }
  rewrite Hu. cbn [store_fails no_faults]. rewrite Hd. simpl.
  split; [done|]. split; [done|]. split.
  - intros u' Hne. by rewrite lookup_insert_ne.
  - rewrite lookup_insert_eq. unfold arrayUnion. by rewrite Hl.
Qed.

Lemma log_activity_union_witness :
  let e0 := {| activity := Some "signup"; timestamp := "2026-01-01T00:00:00.000Z" |} in
  let e := {| activity := Some "login"; timestamp := "2026-01-02T08:30:00.000Z" |} in
  let d := {| uid := "u1"; email := Some "a@x.com";
              referralLink := generateReferralLink "u1";
              referredBy := None; balance := JVal 500%float;
              teamCount := zero; dailyActivities := JVal [e0];
              createdAt := "2026-01-01T00:00:00.000Z" |} in
  let st := {| directory := {[ "a@x.com" := "u1" ]};
               users := {[ "u1" := d ]} |} in
  let req := {| activity_uid := JVal "u1"; activity_label := JVal "login" |} in
  let o := log_activity no_faults "2026-01-02T08:30:00.000Z" req st in
  activity_reply o = Sent 200 ∧
  directory (activity_state o) = directory st ∧
  (∀ u', u' ≠ "u1" → users (activity_state o) !! u' = users st !! u') ∧
  users (activity_state o) !! "u1" =
  Some {| uid := "u1"; email := Some "a@x.com";
          referralLink := "https://vest.com/ref/u1";
          referredBy := None; balance := JVal 500%float;
          teamCount := zero; dailyActivities := JVal [e0; e];
          createdAt := "2026-01-01T00:00:00.000Z" |}.
Proof.
  intros e0 e d st req.
  exact (log_activity_union "2026-01-02T08:30:00.000Z" req st "u1" d [e0]
           (Some "login") eq_refl eq_refl eq_refl eq_refl).
Defined.

(** C9, counterexample: a first "login" request at time [t] adds its
    entry to an empty log; a second "login" request served within the
    same millisecond [t] is answered 200 and appends nothing. *)
Lemma log_activity_same_entry :
  let e := {| activity := Some "login"; timestamp := "2026-01-02T08:30:00.000Z" |} in
  let d := {| uid := "u1"; email := Some "a@x.com";
              referralLink := generateReferralLink "u1";
              referredBy := None; balance := JVal 500%float;
              teamCount := zero; dailyActivities := JVal [];
              createdAt := "2026-01-01T00:00:00.000Z" |} in
  let st := {| directory := {[ "a@x.com" := "u1" ]};
               users := {[ "u1" := d ]} |} in
  let req := {| activity_uid := JVal "u1"; activity_label := JVal "login" |} in
  let o1 := log_activity no_faults "2026-01-02T08:30:00.000Z" req st in
  let o2 := log_activity no_faults "2026-01-02T08:30:00.000Z" req
              (activity_state o1) in
  activity_reply o1 = Sent 200 ∧
  dailyActivities <$> users (activity_state o1) !! "u1" = Some (JVal [e]) ∧
  activity_reply o2 = Sent 200 ∧
  dailyActivities <$> users (activity_state o2) !! "u1" = Some (JVal [e]) ∧
  dailyActivities <$> users (activity_state o2) !! "u1" ≠ Some (JVal [e; e]).
Proof. vm_compute. repeat split; discriminate. Qed.

(** * Two webhook requests at once *)

Lemma stage_finished t : (3 ≤ stage t)%nat → finished t = true.
Proof. destruct t; simpl; [lia..|done]. Qed.

(** A step takes a request one stage further, or straight to its
    answer. *)
Lemma step_progress t s : (Nat.min 3 (S (stage t)) ≤ stage (step t s).1.1)%nat.
Proof.
  destruct t as [f req|f e x|f ref e x|r]; cbn [step].
  - destruct (charge_success _); [|simpl; lia].
    destruct (body_data _) as [| |d]; [simpl; lia..|].
    destruct (data_customer d); simpl; lia.
  - destruct (getUserByEmail _ _ _); [|simpl; lia].
    destruct (doc _); simpl; lia.
  - destruct (runTransaction _ _ _ _); simpl; lia.
  - simpl; lia.
Qed.

(** Each request has got as far as the interleaving has given it
    turns. *)
Lemma interleave_progress sched c :
  (Nat.min 3 (stage (first c) + turns First sched)
   ≤ stage (first (interleave sched c)))%nat ∧
  (Nat.min 3 (stage (second c) + turns Second sched)
   ≤ stage (second (interleave sched c)))%nat.
Proof.
  revert c. induction sched as [|who rest IH]; intros c.
  - simpl. destruct (first c), (second c); simpl; lia.
  - cbn [interleave]. destruct (IH (advance who c)) as [IH1 IH2].
    destruct who; unfold advance in *.
    + pose proof (step_progress (first c) (shared c)) as Hp.
      destruct (step (first c) (shared c)) as [[t s] lg].
      cbn [first second fst snd turns] in *. lia.
    + pose proof (step_progress (second c) (shared c)) as Hp.
      destruct (step (second c) (shared c)) as [[t s] lg].
      cbn [first second fst snd turns] in *. lia.
Qed.

(** Three turns are enough for any request to have answered. *)
Lemma interleave_finishes sched c :
  ((3 ≤ turns First sched)%nat → finished (first (interleave sched c)) = true) ∧
  ((3 ≤ turns Second sched)%nat → finished (second (interleave sched c)) = true).
Proof.
  destruct (interleave_progress sched c) as [H1 H2].
  split; intros Hn; apply stage_finished; lia.
Qed.

Section TwoCredits.

Variables (st : state) (id ref : string) (d : user_doc).
Variables (ha hb : gmap string string) (ea eb : string).
Variables (a b : jsfield float) (txa txb : jsfield string).

Hypothesis payer_a : directory st !! ea = Some id.
Hypothesis payer_b : directory st !! eb = Some id.
Hypothesis document : doc (JVal id) = Some ref.
Hypothesis record : users st !! ref = Some d.

Local Abbreviation ra := (notification ha (JVal ea) a txa).
Local Abbreviation rb := (notification hb (JVal eb) b txb).

Lemma stored_directory n : directory (stored st ref d n) = directory st.
Proof. reflexivity. Qed.

Lemma stored_record n : users (stored st ref d n) !! ref = Some (set_balance n d).
Proof. apply lookup_insert_eq. Qed.

Lemma stored_again n m :
  with_users (<[ref := set_balance m (set_balance n d)]> (users (stored st ref d n)))
    (stored st ref d n) = stored st ref d m.
Proof.
  unfold stored, with_users; simpl. by rewrite insert_insert_eq.
Qed.

(** A pending request either stays pending, leaving the stores as
    they are, or commits its credit on the record as it then is. *)
Lemma pending_step r h e x tx s d' t :
  r = notification h (JVal e) x tx →
  directory s !! e = Some id → users s !! ref = Some d' →
  pending ref r (JVal e) x t →
  (pending ref r (JVal e) x (step t s).1.1 ∧ (step t s).1.2 = s) ∨
  ((step t s).1.1 = Finished (Sent 200) ∧
   (step t s).1.2 =
   with_users (<[ref := set_balance (newBalance (balance d') x) d']> (users s)) s).
Proof.
  intros -> He Hd' [-> | [-> | ->]].
  - left. split; [|done]. right; left. reflexivity.
  - left. cbn [step]. unfold getUserByEmail; cbn [directory_fails no_faults].
    rewrite He, document. split; [|done].
    right; right. reflexivity.
  - right. cbn [step]. unfold runTransaction; cbn [store_fails no_faults].
    by rewrite Hd'.
Qed.

Lemma serial_start :
  serial st ref d ra rb (JVal ea) (JVal eb) a b
    (two_requests st no_faults no_faults ra rb).
Proof. left. repeat split; by left. Qed.

Lemma serial_advance who c :
  serial st ref d ra rb (JVal ea) (JVal eb) a b c →
  serial st ref d ra rb (JVal ea) (JVal eb) a b (advance who c).
Proof.
  intros [(Hs & Ha & Hb)|[(Hs & Ha & Hb)|[(Hs & Ha & Hb)|[(Hs & Ha & Hb)|(Hs & Ha & Hb)]]]];
    destruct c as [s t1 t2]; simpl in Hs, Ha, Hb; subst s; destruct who;
    unfold advance; cbn [shared first second].
  - destruct (pending_step ra ha ea a txa st d t1 eq_refl payer_a record Ha)
      as [[Hp Hst]|[Hf Hst]];
      destruct (step t1 st) as [[t' s'] l']; simpl in *; subst.
    + left. done.
    + right; left. done.
  - destruct (pending_step rb hb eb b txb st d t2 eq_refl payer_b record Hb)
      as [[Hp Hst]|[Hf Hst]];
      destruct (step t2 st) as [[t' s'] l']; simpl in *; subst.
    + left. done.
    + right; right; left. done.
  - subst t1. right; left. done.
  - destruct (pending_step rb hb eb b txb
                (stored st ref d (newBalance (balance d) a)) _ t2 eq_refl
                payer_b (stored_record _) Hb) as [[Hp Hst]|[Hf Hst]];
      destruct (step t2 _) as [[t' s'] l']; simpl in *; subst.
    + right; left. done.
    + right; right; right; left. by rewrite stored_again.
  - destruct (pending_step ra ha ea a txa
                (stored st ref d (newBalance (balance d) b)) _ t1 eq_refl
                payer_a (stored_record _) Ha) as [[Hp Hst]|[Hf Hst]];
      destruct (step t1 _) as [[t' s'] l']; simpl in *; subst.
    + right; right; left. done.
    + right; right; right; right. by rewrite stored_again.
  - subst t2. right; right; left. done.
  - subst t1. right; right; right; left. done.
  - subst t2. right; right; right; left. done.
  - subst t1. right; right; right; right. done.
  - subst t2. right; right; right; right. done.
Qed.

Lemma serial_interleave sched c :
  serial st ref d ra rb (JVal ea) (JVal eb) a b c →
  serial st ref d ra rb (JVal ea) (JVal eb) a b (interleave sched c).
Proof.
  revert c. induction sched as [|who rest IH]; intros c Hc; [done|].
  simpl. apply IH. by apply serial_advance.
Qed.

Lemma pending_unfinished r e x t : pending ref r e x t → finished t = false.
Proof. by intros [-> | [-> | ->]]. Qed.

(** C3. Two concurrent credits, as the code performs them.  Two
    successful notifications for the same record, of amounts [a] and
    [b], are served concurrently; [s] is the stored balance.  Each
    request has answered once the interleaving has given it three
    turns; and in every interleaving in which both have answered, both
    were acknowledged with 200 and the balance is that of the two
    credits applied one after the other, in one of the two orders:
    (((s || 0) + a / 100) || 0) + b / 100 or
    (((s || 0) + b / 100) || 0) + a / 100.  No credit is lost. *)
Theorem concurrent_credits sched :
  let c := interleave sched (two_requests st no_faults no_faults ra rb) in
  ((3 ≤ turns First sched)%nat → finished (first c) = true) ∧
  ((3 ≤ turns Second sched)%nat → finished (second c) = true) ∧
  (finished (first c) = true → finished (second c) = true →
   first c = Finished (Sent 200) ∧ second c = Finished (Sent 200) ∧
   (balance_of ref (shared c) =
    Some (JVal (or_zero (JVal (or_zero (balance d) + ToNumber a / 100)%float)
                + ToNumber b / 100)%float) ∨
    balance_of ref (shared c) =
    Some (JVal (or_zero (JVal (or_zero (balance d) + ToNumber b / 100)%float)
                + ToNumber a / 100)%float))).
Proof.
  intros c.
  destruct (interleave_finishes sched
              (two_requests st no_faults no_faults ra rb)) as [P1 P2].
  split; [exact P1|]. split; [exact P2|]. intros H1 H2.
  destruct (serial_interleave sched _ serial_start)
    as [(Hs & Ha & Hb)|[(Hs & Ha & Hb)|[(Hs & Ha & Hb)|[(Hs & Ha & Hb)|(Hs & Ha & Hb)]]]];
    fold c in Hs, Ha, Hb.
  - apply pending_unfinished in Ha. congruence.
  - apply pending_unfinished in Hb. congruence.
  - apply pending_unfinished in Ha. congruence.
  - repeat split; try done. left.
    unfold balance_of. by rewrite Hs, stored_record.
  - repeat split; try done. right.
    unfold balance_of. by rewrite Hs, stored_record.
Qed.

End TwoCredits.

Lemma concurrent_credits_witness :
  let d := {| uid := "u1"; email := Some "a@x.com";
              referralLink := generateReferralLink "u1";
              referredBy := None; balance := JVal 100%float;
              teamCount := zero; dailyActivities := JVal [];
              createdAt := "2026-01-01T00:00:00.000Z" |} in
  let st := {| directory := {[ "a@x.com" := "u1" ]};
               users := {[ "u1" := d ]} |} in
  let ra := notification ∅ (JVal "a@x.com") (JVal 5000%float) (JVal "T1") in
  let rb := notification ∅ (JVal "a@x.com") (JVal 7000%float) (JVal "T2") in
  let c := interleave [First; Second; First; Second; Second; First]
             (two_requests st no_faults no_faults ra rb) in
  first c = Finished (Sent 200) ∧ second c = Finished (Sent 200) ∧
  balance_of "u1" (shared c) = Some (JVal 220%float).
Proof.
  intros d st ra rb c.
  destruct (concurrent_credits st "u1" "u1" d ∅ ∅ "a@x.com" "a@x.com"
              (JVal 5000%float) (JVal 7000%float) (JVal "T1") (JVal "T2")
              eq_refl eq_refl eq_refl eq_refl
              [First; Second; First; Second; Second; First])
    as (P1 & P2 & S).
  destruct (S (P1 ltac:(simpl; lia)) (P2 ltac:(simpl; lia)))
    as (R1 & R2 & [B|B]);
    (split; [exact R1|]); (split; [exact R2|]); exact B.
Defined.

(** C3, counterexample: a balance of 30 / 100 and two credits of 10 and
    20 kobo.  Both requests are acknowledged in either order, but the
    order of the two commits decides the last bit of the stored sum:
    the two interleavings end in different balances, and the one that
    commits the second request first does not end in
    30 / 100 + 10 / 100 + 20 / 100. *)
Lemma concurrent_credits_order :
  let d := {| uid := "u1"; email := Some "a@x.com";
              referralLink := generateReferralLink "u1";
              referredBy := None; balance := JVal (30 / 100)%float;
              teamCount := zero; dailyActivities := JVal [];
              createdAt := "2026-01-01T00:00:00.000Z" |} in
  let st := {| directory := {[ "a@x.com" := "u1" ]};
               users := {[ "u1" := d ]} |} in
  let ra := notification ∅ (JVal "a@x.com") (JVal 10%float) (JVal "T1") in
  let rb := notification ∅ (JVal "a@x.com") (JVal 20%float) (JVal "T2") in
  let start := two_requests st no_faults no_faults ra rb in
  let c1 := interleave [First; First; First; Second; Second; Second] start in
  let c2 := interleave [First; Second; Second; Second; First; First] start in
  (first c1, second c1) = (Finished (Sent 200), Finished (Sent 200)) ∧
  (first c2, second c2) = (Finished (Sent 200), Finished (Sent 200)) ∧
  balance_of "u1" (shared c1) = Some (JVal ((30 / 100 + 10 / 100) + 20 / 100)%float) ∧
  balance_of "u1" (shared c2) = Some (JVal ((30 / 100 + 20 / 100) + 10 / 100)%float) ∧
  balance_of "u1" (shared c1) ≠ balance_of "u1" (shared c2) ∧
  balance_of "u1" (shared c2) ≠
  Some (JVal (30 / 100 + 10 / 100 + 20 / 100)%float).
Proof.
  repeat split; try reflexivity; vm_compute; intros H; float_clash H.
Qed.

(** * Arithmetic of the credit *)

(** Adding NaN gives NaN. *)
Lemma add_nan x : (x + nan)%float = nan.
Proof.
  apply FloatAxioms.Prim2SF_inj. rewrite FloatAxioms.add_spec.
  change (FloatOps.Prim2SF nan) with SpecFloat.S754_nan.
  unfold FloatAxioms.SF64add, SpecFloat.SFadd.
  by destruct (FloatOps.Prim2SF x).
Qed.

(** A notification without [amount] computes NaN, whatever the balance. *)
Lemma newBalance_no_amount cur : newBalance cur JAbsent = nan.
Proof.
  unfold newBalance, ToNumber.
  change (nan / 100)%float with nan. apply add_nan.
Qed.

(** X1. A "charge.success" without [amount] for a known payer stores
    NaN as the balance, whatever the balance was; the next successful
    credit then starts again from 0, so the earlier balance is lost. *)
Theorem webhook_missing_amount h tx h' tx' e a st id ref d :
  directory st !! e = Some id → doc (JVal id) = Some ref →
  users st !! ref = Some d →
  let o1 := webhook no_faults (notification h (JVal e) JAbsent tx) st in
  let o2 := webhook no_faults (notification h' (JVal e) a tx') (out_state o1) in
  out_reply o1 = Sent 200 ∧
  balance_of ref (out_state o1) = Some (JVal nan) ∧
  balance_of ref (out_state o2) = Some (JVal (zero + ToNumber a / 100)%float).
Proof.
  intros He Hid Hd o1 o2.
  assert (E1 := webhook_credits h e JAbsent tx st id ref d He Hid Hd).
  fold o1 in E1. rewrite newBalance_no_amount in E1.
  assert (Hd1 : users (out_state o1) !! ref = Some (set_balance nan d)).
  { rewrite E1. simpl. apply lookup_insert_eq. }
  assert (He1 : directory (out_state o1) !! e = Some id) by (by rewrite E1).
  assert (E2 := webhook_credits h' e a tx' (out_state o1) id ref _ He1 Hid Hd1).
  fold o2 in E2.
  split; [by rewrite E1|]. unfold balance_of. split.
  - by rewrite Hd1.
  - rewrite E2. simpl. by rewrite lookup_insert_eq.
Qed.

Lemma webhook_missing_amount_witness :
  let d := {| uid := "u1"; email := Some "a@x.com";
              referralLink := generateReferralLink "u1";
              referredBy := None; balance := JVal 750%float;
              teamCount := zero; dailyActivities := JVal [];
              createdAt := "2026-01-01T00:00:00.000Z" |} in
  let st := {| directory := {[ "a@x.com" := "u1" ]};
               users := {[ "u1" := d ]} |} in
  let o1 := webhook no_faults (notification ∅ (JVal "a@x.com") JAbsent JAbsent) st in
  let o2 := webhook no_faults
              (notification ∅ (JVal "a@x.com") (JVal 2000%float) (JVal "T2"))
              (out_state o1) in
  out_reply o1 = Sent 200 ∧
  balance_of "u1" (out_state o1) = Some (JVal nan) ∧
  balance_of "u1" (out_state o2) = Some (JVal (zero + 2000 / 100)%float).
Proof.
  intros d st.
  apply (webhook_missing_amount ∅ JAbsent ∅ (JVal "T2") "a@x.com"
           (JVal 2000%float) st "u1" "u1" d);
    reflexivity.
Defined.

(** * The referral link *)

(** X2. Different account ids get different referral links. *)
Theorem generateReferralLink_distinct a b :
  a ≠ b → generateReferralLink a ≠ generateReferralLink b.
Proof.
  intros Hne Heq. apply Hne. unfold generateReferralLink in Heq.
  by simplify_eq/=.
Qed.

Lemma generateReferralLink_distinct_witness :
  generateReferralLink "u1" ≠ generateReferralLink "u2".
Proof. apply (generateReferralLink_distinct "u1" "u2"). discriminate. Defined.

(** * What the webhook writes *)

(** X3. No webhook request creates or deletes a record: the set of
    document ids of the collection is the same before and after,
    whatever the request and whatever fails. *)
Theorem webhook_keeps_records f req st :
  dom (users (out_state (webhook f req st))) = dom (users st).
Proof.
  rewrite webhook_state.
  destruct (credit_target f req st) as [[ref a]|]; [|done].
  destruct (users st !! ref) as [d|] eqn:Hd; [|done].
  unfold stored; simpl. rewrite dom_insert_L.
  apply elem_of_dom_2 in Hd.
  apply subseteq_union_1_L. by apply singleton_subseteq_l.
Qed.

(** X4. No silent outcome: a webhook request writes no console line
    only when it is not processed (another event, or an unreadable
    customer), and then changes nothing; when processing fails it
    writes one error line, answers 200 and changes nothing; and when it
    writes the recharge line, the line names the payer and the amount
    of the request, the request was answered 200, and exactly the
    record that the payer's account id names has had its balance
    replaced by (balance || 0) + amount / 100. *)
Theorem webhook_log_tells f req st :
  let o := webhook f req st in
  (out_log o = [] ∧ out_state o = st ∧
   (charge_success (body_event (body req)) = false ∨
    customer_unreadable (body req) = true)) ∨
  (∃ err, out_log o = [LogError err] ∧ out_state o = st ∧
          out_reply o = Sent 200) ∨
  (∃ dt c id ref d,
     body_data (body req) = JVal dt ∧ data_customer dt = JVal c ∧
     getUserByEmail f st (customer_email c) = Some id ∧
     doc (JVal id) = Some ref ∧ users st !! ref = Some d ∧
     out_log o =
     [LogRecharged (customer_email c) (ToNumber (data_amount dt) / 100)%float] ∧
     out_state o =
     {| directory := directory st;
        users :=
          <[ref := {| uid := uid d; email := email d;
                      referralLink := referralLink d;
                      referredBy := referredBy d;
                      balance :=
                        JVal (or_zero (balance d)
                              + ToNumber (data_amount dt) / 100)%float;
                      teamCount := teamCount d;
                      dailyActivities := dailyActivities d;
                      createdAt := createdAt d |}]> (users st) |} ∧
     out_reply o = Sent 200).
Proof.
  unfold webhook, customer_unreadable.
  destruct (charge_success _); [|by left; auto]. simpl.
  destruct (body_data _) as [| |dt] eqn:Hdt; [by left; auto..|].
  destruct (data_customer dt) as [| |c] eqn:Hc; [by left; auto..|]. simpl.
  destruct (getUserByEmail _ _ _) as [id|] eqn:Hid; [|by right; left; eauto].
  unfold credit_account.
  destruct (doc _) as [ref|] eqn:Hdoc; [|by right; left; eauto].
  unfold runTransaction. destruct (store_fails f); [by right; left; eauto|].
  destruct (users st !! ref) as [d|] eqn:Hd; [|by right; left; eauto].
  right; right. exists dt, c, id, ref, d. repeat split; done.
Qed.

(** * What the activity log writes *)

Lemma log_activity_state f now req st :
  activity_state (log_activity f now req st) =
  match activity_target f now req with
  | Some (ref, e) =>
      match users st !! ref with
      | Some d =>
          with_users
            (<[ref := set_dailyActivities (arrayUnion e (dailyActivities d)) d]>
               (users st)) st
      | None => st
      end
  | None => st
  end.
Proof.
  unfold log_activity, activity_target.
  destruct (doc _) as [ref|]; [|done].
  destruct (entry_of _ _) as [e|]; [|done].
  destruct (store_fails f); [done|].
  by destruct (users st !! ref).
Qed.

Lemma arrayUnion_elem e cur : e ∈ arrayUnion e cur.
Proof.
  destruct cur as [| |l]; simpl; [apply list_elem_of_here..|].
  case_decide; [done|]. apply elem_of_app. right. apply list_elem_of_here.
Qed.

Lemma arrayUnion_again e cur :
  arrayUnion e (JVal (arrayUnion e cur)) = arrayUnion e cur.
Proof.
  unfold arrayUnion at 1. case_decide as Hin; [done|].
  destruct Hin. apply arrayUnion_elem.
Qed.

Lemma arrayUnion_NoDup e l : NoDup l → NoDup (arrayUnion e (JVal l)).
Proof.
  intros Hl. simpl. case_decide as Hin; [done|].
  apply NoDup_app. split; [done|]. split; [|apply NoDup_singleton].
  intros x Hx ->%list_elem_of_singleton. done.
Qed.


(** X6. Logging is idempotent at a fixed time: serving the same
    activity request twice with the same timestamp leaves the stores
    exactly as serving it once. *)
Theorem log_activity_idempotent f now req st :
  activity_state (log_activity f now req (activity_state (log_activity f now req st))) =
  activity_state (log_activity f now req st).
Proof.
  rewrite !log_activity_state.
  destruct (activity_target f now req) as [[ref e]|]; [|done].
  destruct (users st !! ref) as [d|] eqn:Hd; [|by rewrite Hd].
  unfold with_users; cbn [users directory]. rewrite lookup_insert_eq.
  cbn [dailyActivities set_dailyActivities]. rewrite arrayUnion_again.
  by rewrite insert_insert_eq.
Qed.

(** X7. The activity log is append-only and independent of the
    balance: after any activity request, successful or not, every
    record that had a log still has one of which the old log is a
    prefix, longer by at most one entry, and its balance is as before. *)
Theorem log_activity_append_only f now req st id d l :
  users st !! id = Some d → dailyActivities d = JVal l →
  ∃ d' l', users (activity_state (log_activity f now req st)) !! id = Some d' ∧
           dailyActivities d' = JVal l' ∧ l `prefix_of` l' ∧
           (List.length l' ≤ S (List.length l))%nat ∧ balance d' = balance d.
Proof.
  intros Hd Hl. rewrite log_activity_state.
  assert (Hsame : ∃ d' l', users st !! id = Some d' ∧ dailyActivities d' = JVal l' ∧
            l `prefix_of` l' ∧ (List.length l' ≤ S (List.length l))%nat ∧ balance d' = balance d).
  { exists d, l. split; [done|]. split; [done|]. split; [done|].
    split; [lia|done]. }
  destruct (activity_target f now req) as [[ref e]|]; [|done].
  destruct (users st !! ref) as [d0|] eqn:Hd0; [|done].
  simpl. destruct (decide (ref = id)) as [->|Hne].
  - rewrite lookup_insert_eq. assert (d0 = d) as -> by congruence.
    eexists _, _. split; [done|]. split; [done|]. rewrite Hl. simpl.
    case_decide.
    + split; [done|]. split; [lia|done].
    + split; [by apply prefix_app_r|]. split; [|done].
      rewrite length_app; simpl; lia.
  - by rewrite lookup_insert_ne.
Qed.

Lemma log_activity_append_only_witness :
  let e0 := {| activity := Some "signup"; timestamp := "2026-01-01T00:00:00.000Z" |} in
  let d := {| uid := "u1"; email := Some "a@x.com";
              referralLink := generateReferralLink "u1";
              referredBy := None; balance := JVal 500%float;
              teamCount := zero; dailyActivities := JVal [e0];
              createdAt := "2026-01-01T00:00:00.000Z" |} in
  let st := {| directory := {[ "a@x.com" := "u1" ]};
               users := {[ "u1" := d ]} |} in
  let req := {| activity_uid := JVal "u1"; activity_label := JVal "login" |} in
  ∃ d' l',
    users (activity_state
             (log_activity no_faults "2026-01-02T08:30:00.000Z" req st)) !! "u1" =
    Some d' ∧
    dailyActivities d' = JVal l' ∧ [e0] `prefix_of` l' ∧
    (List.length l' ≤ S (List.length [e0]))%nat ∧ balance d' = balance d.
Proof.
  intros e0 d st req.
  exact (log_activity_append_only no_faults "2026-01-02T08:30:00.000Z" req st
           "u1" d [e0] eq_refl eq_refl).
Defined.

Lemma log_activity_directory f now req st :
  directory (activity_state (log_activity f now req st)) = directory st.
Proof.
  rewrite log_activity_state.
  destruct (activity_target f now req) as [[ref e]|]; [|done].
  by destruct (users st !! ref).
Qed.

(** X8. Crediting and logging do not interfere: a webhook request and
    an activity request leave the same stores in whichever order they
    are served, whatever the two requests are and whatever fails. *)
Theorem webhook_log_activity_commute f f' now wreq areq st :
  out_state (webhook f wreq (activity_state (log_activity f' now areq st))) =
  activity_state (log_activity f' now areq (out_state (webhook f wreq st))).
Proof.
  rewrite (webhook_state f wreq (activity_state _)).
  rewrite (credit_target_directory f wreq st (activity_state _))
    by apply log_activity_directory.
  rewrite (log_activity_state f' now areq (out_state _)).
  rewrite webhook_state, log_activity_state.
  destruct (credit_target f wreq st) as [[rw a]|]; [|done].
  destruct (activity_target f' now areq) as [[ra e]|]; [|done].
  destruct (users st !! rw) as [dw|] eqn:Hw;
    destruct (users st !! ra) as [da|] eqn:Ha;
    unfold stored, with_users; cbn [users directory].
  - destruct (decide (rw = ra)) as [->|Hne].
    + assert (dw = da) as -> by congruence.
      rewrite !lookup_insert_eq, !insert_insert_eq. done.
    + repeat first [ rewrite Hw | rewrite Ha
                   | rewrite lookup_insert_ne by congruence ].
      by rewrite insert_insert_ne.
  - by repeat first [ rewrite Hw | rewrite Ha
                    | rewrite lookup_insert_ne by congruence ].
  - by repeat first [ rewrite Hw | rewrite Ha
                    | rewrite lookup_insert_ne by congruence ].
  - by repeat first [ rewrite Hw | rewrite Ha ].
Qed.

(** * What signup writes *)

Lemma register_users e id st : users (register e id st) = users st.
Proof. by destruct e. Qed.

(** The two outcomes of a signup: refused with nothing written to the
    collection, or created with the new record stored in the document
    that the id of the new account names. *)
Lemma signup_cases f created now req st :
  let o := signup f created now req st in
  (signup_reply o = Sent 400 ∧ signup_user o = None ∧
   users (signup_state o) = users st) ∨
  (∃ id ref e,
     created = Some id ∧ doc (JVal id) = Some ref ∧
     signup_reply o = Sent 201 ∧
     signup_user o = Some (userData id e (signup_referredBy req) now) ∧
     users (signup_state o) =
     <[ref := userData id e (signup_referredBy req) now]> (users st) ∧
     directory (signup_state o) =
     directory (register (signup_email req) id st)).
Proof.
  unfold signup. destruct created as [id|]; [|by left].
  assert (Hrefused :
    ∀ o, o = {| signup_reply := Sent 400; signup_user := None;
                signup_state := register (signup_email req) id st |} →
         signup_reply o = Sent 400 ∧ signup_user o = None ∧
         users (signup_state o) = users st).
  { intros o ->. simpl. by rewrite register_users. }
  destruct (doc (JVal id)) as [ref|] eqn:Hdoc; [|left; by apply Hrefused].
  cbn zeta.
  destruct (signup_email req) as [| |e] eqn:He; [left; by apply Hrefused|..];
    (destruct (store_fails f); [left; by apply Hrefused|]).
  - right. by exists id, ref, None.
  - right. by exists id, ref, (Some e).
Qed.

(** * Invariants of the collection *)

(** One step: each writing handler keeps the logs free of repeats. *)
Lemma logs_distinct_kept st :
  logs_distinct st →
  (∀ f now req, logs_distinct (activity_state (log_activity f now req st))) ∧
  (∀ f req, logs_distinct (out_state (webhook f req st))) ∧
  (∀ f created now req,
     logs_distinct (signup_state (signup f created now req st))).
Proof.
  intros Hinv. split; [|split].
  - intros f now req id d l. rewrite log_activity_state.
    destruct (activity_target f now req) as [[ref e]|]; [|apply Hinv].
    destruct (users st !! ref) as [d0|] eqn:Hd0; [|apply Hinv].
    cbn [users with_users].
    destruct (decide (ref = id)) as [->|Hne].
    + rewrite lookup_insert_eq. intros [= <-]. cbn [dailyActivities set_dailyActivities].
      intros [= <-].
      destruct (dailyActivities d0) as [| |l0] eqn:Hl0;
        [apply NoDup_singleton..|].
      apply arrayUnion_NoDup. by apply (Hinv id d0 l0).
    + rewrite lookup_insert_ne by done. apply Hinv.
  - intros f req id d l. rewrite webhook_state.
    destruct (credit_target f req st) as [[ref a]|]; [|apply Hinv].
    destruct (users st !! ref) as [d0|] eqn:Hd0; [|apply Hinv].
    unfold stored; cbn [users with_users].
    destruct (decide (ref = id)) as [->|Hne].
    + rewrite lookup_insert_eq. intros [= <-]. simpl. by apply (Hinv id d0 l).
    + rewrite lookup_insert_ne by done. apply Hinv.
  - intros f created now req id d l.
    destruct (signup_cases f created now req st)
      as [(_ & _ & ->)|(new & ref & e & _ & _ & _ & _ & -> & _)]; [apply Hinv|].
    destruct (decide (ref = id)) as [->|Hne].
    + rewrite lookup_insert_eq. intros [= <-] [= <-]. apply NoDup_nil_2.
    + rewrite lookup_insert_ne by done. apply Hinv.
Qed.

(** X9. No duplicate entries: in stores grown from the empty directory
    and the empty collection by any sequence of signups, webhook
    requests and activity requests, whatever their inputs and whatever
    fails, no activity log ever holds the same entry twice. *)
Theorem grown_logs_distinct st :
  grown st →
  ∀ id d l, users st !! id = Some d → dailyActivities d = JVal l → NoDup l.
Proof.
  intros Hg. change (logs_distinct st).
  induction Hg as [|f created now req st _ IH|f req st _ IH|f now req st _ IH].
  - intros id d l H. simpl in H. by rewrite lookup_empty in H.
  - by apply (logs_distinct_kept st IH).
  - by apply (logs_distinct_kept st IH).
  - by apply (logs_distinct_kept st IH).
Qed.

Lemma grown_logs_distinct_witness :
  let s0 := {| directory := ∅; users := ∅ |} in
  let s1 := signup_state
              (signup no_faults (Some "u1") "2026-01-01T00:00:00.000Z"
                 {| signup_email := JVal "a@x.com";
                    signup_password := JVal "hunter22";
                    signup_referredBy := JAbsent |} s0) in
  let login := {| activity_uid := JVal "u1"; activity_label := JVal "login" |} in
  let s2 := activity_state
              (log_activity no_faults "2026-01-02T08:30:00.000Z" login s1) in
  let s3 := activity_state
              (log_activity no_faults "2026-01-02T08:30:00.000Z" login s2) in
  let s4 := activity_state
              (log_activity no_faults "2026-01-03T09:00:00.000Z" login s3) in
  let e1 := {| activity := Some "login"; timestamp := "2026-01-02T08:30:00.000Z" |} in
  let e2 := {| activity := Some "login"; timestamp := "2026-01-03T09:00:00.000Z" |} in
  grown s4 ∧
  dailyActivities <$> users s4 !! "u1" = Some (JVal [e1; e2]) ∧
  NoDup [e1; e2].
Proof.
  intros s0 s1 login s2 s3 s4 e1 e2.
  assert (G : grown s4).
  { apply grown_activity, grown_activity, grown_activity, grown_signup,
      grown_empty. }
  split; [exact G|]. split; [reflexivity|].
  refine (grown_logs_distinct s4 G "u1"
            (set_dailyActivities [e1; e2]
               (userData "u1" (Some "a@x.com") JAbsent "2026-01-01T00:00:00.000Z"))
            [e1; e2] _ _); reflexivity.
Defined.

(** * Signup and the read routes *)

(** X10. A signup answered 201 has stored, in the document that the id
    of the account the directory created names, exactly the record it
    returns: balance 0, an empty activity log, the referral link of
    that id; every other record is as before. *)
Theorem signup_created f created now req st :
  let o := signup f created now req st in
  signup_reply o = Sent 201 →
  ∃ id ref d,
    created = Some id ∧ doc (JVal id) = Some ref ∧ signup_user o = Some d ∧
    users (signup_state o) !! ref = Some d ∧
    uid d = id ∧ balance d = JVal zero ∧ dailyActivities d = JVal [] ∧
    referralLink d = generateReferralLink id ∧
    ∀ id', id' ≠ ref → users (signup_state o) !! id' = users st !! id'.
Proof.
  intros o H201. subst o.
  destruct (signup_cases f created now req st)
    as [(H400 & _)|(id & ref & e & Hc & Hid & _ & Hu & Hst & _)]; [congruence|].
  exists id, ref, (userData id e (signup_referredBy req) now).
  rewrite Hst, Hu. repeat split; try done.
  - apply lookup_insert_eq.
  - intros id' Hne. by rewrite lookup_insert_ne.
Qed.

Lemma signup_created_witness :
  let st := {| directory := ∅; users := ∅ |} in
  let o := signup no_faults (Some "u1") "2026-01-01T00:00:00.000Z"
             {| signup_email := JVal "a@x.com";
                signup_password := JVal "hunter22";
                signup_referredBy := JVal "u0" |} st in
  ∃ id ref d,
    Some "u1" = Some id ∧ doc (JVal id) = Some ref ∧ signup_user o = Some d ∧
    users (signup_state o) !! ref = Some d ∧
    uid d = id ∧ balance d = JVal zero ∧ dailyActivities d = JVal [] ∧
    referralLink d = generateReferralLink id ∧
    ∀ id', id' ≠ ref → users (signup_state o) !! id' = users st !! id'.
Proof.
  intros st.
  apply (signup_created no_faults (Some "u1") "2026-01-01T00:00:00.000Z"
           {| signup_email := JVal "a@x.com";
              signup_password := JVal "hunter22";
              signup_referredBy := JVal "u0" |} st).
  reflexivity.
Defined.

(** X11. A signup is answered 201 or 400.  When it is answered 400 no
    record has been written and no user is returned; and when the
    directory refused to create the account, the directory is
    unchanged as well. *)
Theorem signup_refused f created now req st :
  let o := signup f created now req st in
  (signup_reply o = Sent 201 ∨
   (signup_reply o = Sent 400 ∧ signup_user o = None ∧
    users (signup_state o) = users st)) ∧
  signup_state (signup f None now req st) = st.
Proof.
  split; [|done].
  destruct (signup_cases f created now req st)
    as [H400|(id & ref & e & _ & _ & H201 & _)]; [by right|by left].
Qed.

(** X12. An account without a record: when the directory creates the
    account but writing the record fails, signup answers 400 and the
    account stays registered with no record.  A later payment
    notification for that address is acknowledged with 200, credits
    nothing and logs that the record is missing; signin for the
    address answers 200 without a user; GET /user/:uid answers 404. *)
Theorem signup_orphan f now e pw ref st id key :
  store_fails f = true → doc (JVal id) = Some key → users st !! key = None →
  let o := signup f (Some id) now
             {| signup_email := JVal e; signup_password := pw;
                signup_referredBy := ref |} st in
  signup_reply o = Sent 400 ∧
  directory (signup_state o) !! e = Some id ∧
  users (signup_state o) = users st ∧
  (∀ h a tx,
     webhook no_faults (notification h (JVal e) a tx) (signup_state o) =
     {| out_reply := Sent 200; out_state := signup_state o;
        out_log := [LogError LedgerRecordMissing] |}) ∧
  signin no_faults {| signin_email := JVal e |} (signup_state o) =
  {| signin_reply := Sent 200; signin_user := None |} ∧
  get_user no_faults id (signup_state o) =
  {| user_reply := Sent 404; user_body := None |}.
Proof.
  intros Hf Hid Hnone o.
  assert (Ho : o = {| signup_reply := Sent 400; signup_user := None;
                      signup_state :=
                        {| directory := <[e := id]> (directory st);
                           users := users st |} |}).
  { unfold o, signup. rewrite Hid. cbn. by rewrite Hf. }
  rewrite Ho. cbn [signup_reply signup_state directory users].
  split; [done|]. split; [apply lookup_insert_eq|]. split; [done|].
  split; [|split].
  - intros h a tx. unfold webhook, notification; cbn [body body_event body_data].
    change (charge_success (JVal "charge.success")) with true.
    cbn [data_customer customer_email data_amount].
    unfold getUserByEmail; cbn [directory_fails no_faults directory].
    rewrite lookup_insert_eq. unfold credit_account.
    rewrite Hid. unfold runTransaction.
    cbn [store_fails no_faults users]. by rewrite Hnone.
  - unfold signin, getUserByEmail; cbn [directory_fails no_faults directory signin_email].
    rewrite lookup_insert_eq, Hid.
    cbn [store_fails no_faults users]. by rewrite Hnone.
  - unfold get_user. rewrite Hid.
    cbn [store_fails no_faults users]. by rewrite Hnone.
Qed.

Lemma signup_orphan_witness :
  let f := {| directory_fails := false; store_fails := true |} in
  let st := {| directory := ∅; users := ∅ |} in
  let o := signup f (Some "u1") "2026-01-01T00:00:00.000Z"
             {| signup_email := JVal "a@x.com";
                signup_password := JVal "hunter22";
                signup_referredBy := JAbsent |} st in
  signup_reply o = Sent 400 ∧
  directory (signup_state o) !! "a@x.com" = Some "u1" ∧
  users (signup_state o) = users st ∧
  (∀ h a tx,
     webhook no_faults (notification h (JVal "a@x.com") a tx) (signup_state o) =
     {| out_reply := Sent 200; out_state := signup_state o;
        out_log := [LogError LedgerRecordMissing] |}) ∧
  signin no_faults {| signin_email := JVal "a@x.com" |} (signup_state o) =
  {| signin_reply := Sent 200; signin_user := None |} ∧
  get_user no_faults "u1" (signup_state o) =
  {| user_reply := Sent 404; user_body := None |}.
Proof.
  intros f st.
  apply (signup_orphan f "2026-01-01T00:00:00.000Z" "a@x.com"
           (JVal "hunter22") JAbsent st "u1" "u1");
    reflexivity.
Defined.

(** X13. Signup then signin: after a signup answered 201, a signin with
    the same address is answered 200 with the user that the signup
    returned. *)
Theorem signup_then_signin f created now req st e :
  signup_email req = JVal e →
  let o := signup f created now req st in
  signup_reply o = Sent 201 →
  signin no_faults {| signin_email := JVal e |} (signup_state o) =
  {| signin_reply := Sent 200; signin_user := signup_user o |}.
Proof.
  intros He o H201. subst o.
  destruct (signup_cases f created now req st)
    as [(H400 & _)|(id & ref & e' & _ & Hid & _ & Hu & Hst & Hdir)]; [congruence|].
  rewrite He in Hdir. cbn [register directory] in Hdir.
  unfold signin, getUserByEmail; cbn [directory_fails no_faults signin_email].
  rewrite Hdir, lookup_insert_eq, Hid.
  cbn [store_fails]. by rewrite Hst, lookup_insert_eq, Hu.
Qed.

Lemma signup_then_signin_witness :
  let st := {| directory := ∅; users := ∅ |} in
  let o := signup no_faults (Some "u1") "2026-01-01T00:00:00.000Z"
             {| signup_email := JVal "a@x.com";
                signup_password := JVal "hunter22";
                signup_referredBy := JAbsent |} st in
  signin no_faults {| signin_email := JVal "a@x.com" |} (signup_state o) =
  {| signin_reply := Sent 200; signin_user := signup_user o |}.
Proof.
  intros st.
  apply (signup_then_signin no_faults (Some "u1") "2026-01-01T00:00:00.000Z"
           {| signup_email := JVal "a@x.com";
              signup_password := JVal "hunter22";
              signup_referredBy := JAbsent |} st "a@x.com");
    reflexivity.
Defined.

(** X14. Signup then lookup: after a signup answered 201 for the account
    [id], GET /user/[id] is answered 200 with the user that the signup
    returned. *)
Theorem signup_then_get_user f id now req st :
  let o := signup f (Some id) now req st in
  signup_reply o = Sent 201 →
  get_user no_faults id (signup_state o) =
  {| user_reply := Sent 200; user_body := signup_user o |}.
Proof.
  intros o H201. subst o.
  destruct (signup_cases f (Some id) now req st)
    as [(H400 & _)|(id' & ref & e' & [= <-] & Hid & _ & Hu & Hst & _)];
    [congruence|].
  unfold get_user. rewrite Hid. cbn [store_fails no_faults].
  by rewrite Hst, lookup_insert_eq, Hu.
Qed.

Lemma signup_then_get_user_witness :
  let st := {| directory := ∅; users := ∅ |} in
  let o := signup no_faults (Some "u1") "2026-01-01T00:00:00.000Z"
             {| signup_email := JVal "c@x.com";
                signup_password := JVal "hunter22";
                signup_referredBy := JVal "" |} st in
  get_user no_faults "u1" (signup_state o) =
  {| user_reply := Sent 200; user_body := signup_user o |}.
Proof.
  intros st.
  apply (signup_then_get_user no_faults "u1" "2026-01-01T00:00:00.000Z"
           {| signup_email := JVal "c@x.com";
              signup_password := JVal "hunter22";
              signup_referredBy := JVal "" |} st).
  reflexivity.
Defined.



(** * Two webhook requests for different records *)

Section TwoPayers.

Variables (st : state) (ida idb refa refb : string) (da db : user_doc).
Variables (ha hb : gmap string string) (ea eb : string).
Variables (a b : jsfield float) (txa txb : jsfield string).

Hypothesis payer_a : directory st !! ea = Some ida.
Hypothesis payer_b : directory st !! eb = Some idb.
Hypothesis document_a : doc (JVal ida) = Some refa.
Hypothesis document_b : doc (JVal idb) = Some refb.
Hypothesis record_a : users st !! refa = Some da.
Hypothesis record_b : users st !! refb = Some db.
Hypothesis different : refa ≠ refb.

Local Abbreviation ra := (notification ha (JVal ea) a txa).
Local Abbreviation rb := (notification hb (JVal eb) b txb).
Local Abbreviation na := (newBalance (balance da) a).
Local Abbreviation nb := (newBalance (balance db) b).

Lemma stored_other_a : users (stored st refb db nb) !! refa = Some da.
Proof. unfold stored; simpl. by rewrite lookup_insert_ne. Qed.

Lemma stored_other_b : users (stored st refa da na) !! refb = Some db.
Proof. unfold stored; simpl. by rewrite lookup_insert_ne. Qed.

Lemma stored_swap :
  stored (stored st refb db nb) refa da na = stored (stored st refa da na) refb db nb.
Proof. unfold stored, with_users; simpl. by rewrite insert_insert_ne. Qed.

Lemma independent_advance who c :
  independent st refa refb da db ra rb (JVal ea) (JVal eb) a b c →
  independent st refa refb da db ra rb (JVal ea) (JVal eb) a b (advance who c).
Proof.
  intros [(Hs & Ha & Hb)|[(Hs & Ha & Hb)|[(Hs & Ha & Hb)|(Hs & Ha & Hb)]]];
    destruct c as [s t1 t2]; simpl in Hs, Ha, Hb; subst s; destruct who;
    unfold advance; cbn [shared first second].
  - destruct (pending_step ida refa document_a ra ha ea a txa st da t1
                eq_refl payer_a record_a Ha) as [[Hp Hst]|[Hf Hst]];
      destruct (step t1 st) as [[t' s'] l']; simpl in *; subst.
    + left. done.
    + right; left. done.
  - destruct (pending_step idb refb document_b rb hb eb b txb st db t2
                eq_refl payer_b record_b Hb) as [[Hp Hst]|[Hf Hst]];
      destruct (step t2 st) as [[t' s'] l']; simpl in *; subst.
    + left. done.
    + right; right; left. done.
  - subst t1. right; left. done.
  - destruct (pending_step idb refb document_b rb hb eb b txb
                (stored st refa da na) db t2 eq_refl payer_b
                stored_other_b Hb) as [[Hp Hst]|[Hf Hst]];
      destruct (step t2 _) as [[t' s'] l']; simpl in *; subst.
    + right; left. done.
    + right; right; right. done.
  - destruct (pending_step ida refa document_a ra ha ea a txa
                (stored st refb db nb) da t1 eq_refl payer_a
                stored_other_a Ha) as [[Hp Hst]|[Hf Hst]];
      destruct (step t1 _) as [[t' s'] l']; simpl in *; subst.
    + right; right; left. done.
    + right; right; right. split; [|done]. apply stored_swap.
  - subst t2. right; right; left. done.
  - subst t1. right; right; right. done.
  - subst t2. right; right; right. done.
Qed.

Lemma independent_interleave sched c :
  independent st refa refb da db ra rb (JVal ea) (JVal eb) a b c →
  independent st refa refb da db ra rb (JVal ea) (JVal eb) a b (interleave sched c).
Proof.
  revert c. induction sched as [|who rest IH]; intros c Hc; [done|].
  simpl. apply IH. by apply independent_advance.
Qed.

(** X16. Credits to different users do not depend on the order.  Two
    successful notifications for two different records are served
    concurrently.  Each request has answered once the interleaving has
    given it three turns; and in every interleaving in which both have
    answered, both were acknowledged with 200 and the stores are the
    same: each of the two records has had its balance replaced by
    (its balance || 0) + its amount / 100, and nothing else has
    changed. *)
Theorem concurrent_credits_apart sched :
  let c := interleave sched (two_requests st no_faults no_faults ra rb) in
  ((3 ≤ turns First sched)%nat → finished (first c) = true) ∧
  ((3 ≤ turns Second sched)%nat → finished (second c) = true) ∧
  (finished (first c) = true → finished (second c) = true →
   first c = Finished (Sent 200) ∧ second c = Finished (Sent 200) ∧
   shared c =
   {| directory := directory st;
      users :=
        <[refb := {| uid := uid db; email := email db;
                     referralLink := referralLink db;
                     referredBy := referredBy db;
                     balance := JVal (or_zero (balance db) + ToNumber b / 100)%float;
                     teamCount := teamCount db;
                     dailyActivities := dailyActivities db;
                     createdAt := createdAt db |}]>
          (<[refa := {| uid := uid da; email := email da;
                        referralLink := referralLink da;
                        referredBy := referredBy da;
                        balance := JVal (or_zero (balance da) + ToNumber a / 100)%float;
                        teamCount := teamCount da;
                        dailyActivities := dailyActivities da;
                        createdAt := createdAt da |}]> (users st)) |}).
Proof.
  intros c.
  destruct (interleave_finishes sched
              (two_requests st no_faults no_faults ra rb)) as [P1 P2].
  split; [exact P1|]. split; [exact P2|]. intros H1 H2.
  assert (Hstart : independent st refa refb da db ra rb (JVal ea) (JVal eb) a b
                     (two_requests st no_faults no_faults ra rb)).
  { left. repeat split; by left. }
  destruct (independent_interleave sched _ Hstart)
    as [(Hs & Ha & Hb)|[(Hs & Ha & Hb)|[(Hs & Ha & Hb)|(Hs & Ha & Hb)]]];
    fold c in Hs, Ha, Hb.
  - apply pending_unfinished in Ha. congruence.
  - apply pending_unfinished in Hb. congruence.
  - apply pending_unfinished in Ha. congruence.
  - done.
Qed.

End TwoPayers.

Lemma concurrent_credits_apart_witness :
  let da := {| uid := "u1"; email := Some "a@x.com";
               referralLink := "https://vest.com/ref/u1";
               referredBy := None; balance := JVal 100%float;
               teamCount := zero; dailyActivities := JVal [];
               createdAt := "2026-01-01T00:00:00.000Z" |} in
  let db := {| uid := "u2"; email := Some "b@x.com";
               referralLink := "https://vest.com/ref/u2";
               referredBy := Some "u1"; balance := JAbsent;
               teamCount := zero; dailyActivities := JVal [];
               createdAt := "2026-01-02T00:00:00.000Z" |} in
  let st := {| directory := {[ "a@x.com" := "u1"; "b@x.com" := "u2" ]};
               users := {[ "u1" := da; "u2" := db ]} |} in
  let ra := notification ∅ (JVal "a@x.com") (JVal 5000%float) (JVal "T1") in
  let rb := notification ∅ (JVal "b@x.com") (JVal 7000%float) (JVal "T2") in
  let c := interleave [Second; First; First; Second; First; Second]
             (two_requests st no_faults no_faults ra rb) in
  first c = Finished (Sent 200) ∧ second c = Finished (Sent 200) ∧
  shared c =
  {| directory := {[ "a@x.com" := "u1"; "b@x.com" := "u2" ]};
     users :=
       <["u2" := {| uid := "u2"; email := Some "b@x.com";
                    referralLink := "https://vest.com/ref/u2";
                    referredBy := Some "u1"; balance := JVal 70%float;
                    teamCount := zero; dailyActivities := JVal [];
                    createdAt := "2026-01-02T00:00:00.000Z" |}]>
         (<["u1" := {| uid := "u1"; email := Some "a@x.com";
                       referralLink := "https://vest.com/ref/u1";
                       referredBy := None; balance := JVal 150%float;
                       teamCount := zero; dailyActivities := JVal [];
                       createdAt := "2026-01-01T00:00:00.000Z" |}]>
            {[ "u1" := da; "u2" := db ]}) |}.
Proof.
  intros da db st ra rb c.
  destruct (concurrent_credits_apart st "u1" "u2" "u1" "u2" da db ∅ ∅
              "a@x.com" "b@x.com"
              (JVal 5000%float) (JVal 7000%float) (JVal "T1") (JVal "T2")
              eq_refl eq_refl eq_refl eq_refl eq_refl eq_refl
              ltac:(discriminate)
              [Second; First; First; Second; First; Second])
    as (P1 & P2 & S).
  exact (S (P1 ltac:(simpl; lia)) (P2 ltac:(simpl; lia))).
Defined.

(** * A notification with a null amount *)

(** Adding +0 to a number that is neither a zero nor NaN gives it back. *)
Lemma add_zero_truthy n : truthy n = true → (n + zero)%float = n.
Proof.
  unfold truthy, is_nan. rewrite !FloatAxioms.eqb_spec. intros Hn.
  apply FloatAxioms.Prim2SF_inj. rewrite FloatAxioms.add_spec.
  change (FloatOps.Prim2SF zero) with (SpecFloat.S754_zero false) in *.
  unfold FloatAxioms.SF64add, SpecFloat.SFadd.
  by destruct (FloatOps.Prim2SF n) as [s|s| |s m e].
Qed.

(** X17. A "charge.success" whose amount is null credits nothing: for a
    registered payer whose balance is a number other than zero and
    NaN, the notification is acknowledged with 200 and leaves the
    stores exactly as they were. *)
Theorem webhook_null_amount h e tx st id ref d n :
  directory st !! e = Some id → doc (JVal id) = Some ref →
  users st !! ref = Some d →
  balance d = JVal n → truthy n = true →
  out_reply (webhook no_faults (notification h (JVal e) JNull tx) st) = Sent 200 ∧
  out_state (webhook no_faults (notification h (JVal e) JNull tx) st) = st.
Proof.
  intros He Hid Hd Hbal Hn.
  rewrite (webhook_credits h e JNull tx st id ref d He Hid Hd).
  split; [done|]. cbn [out_state].
  assert (newBalance (balance d) JNull = n) as ->.
  { unfold newBalance, ToNumber. rewrite Hbal. simpl. rewrite Hn.
    change (zero / 100)%float with zero. by apply add_zero_truthy. }
  rewrite (set_balance_same _ _ Hbal), (insert_id _ _ _ Hd).
  by destruct st.
Qed.

Lemma webhook_null_amount_witness :
  let d := {| uid := "u1"; email := Some "a@x.com";
              referralLink := generateReferralLink "u1";
              referredBy := None; balance := JVal 750%float;
              teamCount := zero; dailyActivities := JVal [];
              createdAt := "2026-01-01T00:00:00.000Z" |} in
  let st := {| directory := {[ "a@x.com" := "u1" ]};
               users := {[ "u1" := d ]} |} in
  out_reply (webhook no_faults (notification ∅ (JVal "a@x.com") JNull JAbsent) st) =
  Sent 200 ∧
  out_state (webhook no_faults (notification ∅ (JVal "a@x.com") JNull JAbsent) st) =
  st.
Proof.
  intros d st.
  apply (webhook_null_amount ∅ "a@x.com" JAbsent st "u1" "u1" d 750%float);
    reflexivity.
Defined.
